(** * Transcript retrieval tool: a model of [get_transcript.py]

    The development follows the script function by function.  Python
    strings are sequences of Unicode code points, so a string is a list
    of code points here.  The library functions the script calls
    ([str.split], [str.strip], [sorted], [re.sub], [re.split],
    [re.search], [json.loads]) are modelled in the modules [Py], [Re]
    and [Json]; the file system and the output streams are explicit; the
    functions of the script follow under their own names.  The second
    half states and proves the properties of the script, each claim
    under its number. *)

From Stdlib Require Import String Ascii.
From Stdlib Require Import List NArith ZArith Bool Lia Arith Permutation Sorted.
Import ListNotations.

Local Open Scope N_scope.
Local Open Scope list_scope.

(** ** Strings *)

(** A character is its code point. *)
Definition char := N.
Definition str := list char.

(** A literal of the script, written as a Rocq string (ASCII only). *)
Definition lit (s : string) : str :=
  List.map N_of_ascii (list_ascii_of_string s).

Definition NL : char := 10.
Definition BACKSLASH : char := 92.
Definition LOWER_U : char := 117.

(** Exceptions the script can meet. *)
Inductive exn : Type :=
| JSONDecodeError
| AttributeError
| TypeError
| ValueError
| RecursionError
| OSError
| SystemExit (code : N).

Inductive result (A : Type) : Type :=
| Ok (a : A)
| Raise (e : exn).
Arguments Ok {A} a.
Arguments Raise {A} e.

Module Py.

(** [a == b] on strings. *)
Fixpoint str_eqb (a b : str) : bool :=
  match a, b with
  | [], [] => true
  | x :: a', y :: b' => (x =? y) && str_eqb a' b'
  | _, _ => false
  end.

(** [a <= b] on strings: lexicographic on code points, a proper prefix
    comes first. *)
Fixpoint str_leb (a b : str) : bool :=
  match a, b with
  | [], _ => true
  | _ :: _, [] => false
  | x :: a', y :: b' =>
      if x <? y then true else if y <? x then false else str_leb a' b'
  end.

(** [s.startswith(p)]. *)
Fixpoint startswith (p s : str) : bool :=
  match p, s with
  | [], _ => true
  | _ :: _, [] => false
  | x :: p', y :: s' => (x =? y) && startswith p' s'
  end.

(** [s.endswith(p)]. *)
Definition endswith (p s : str) : bool :=
  startswith (rev p) (rev s).

(** [sub in s]. *)
Fixpoint contains (sub s : str) : bool :=
  match s with
  | [] => match sub with [] => true | _ => false end
  | _ :: s' => startswith sub s || contains sub s'
  end.

(** [s.split(sep)] for a one-character separator: the pieces between
    the separators, always at least one piece. *)
Fixpoint split (sep : char) (s : str) : list str :=
  match s with
  | [] => [[]]
  | c :: s' =>
      if c =? sep then [] :: split sep s'
      else match split sep s' with
           | [] => [[c]]
           | piece :: pieces => (c :: piece) :: pieces
           end
  end.

(** [sep.join(pieces)]. *)
Fixpoint join (sep : str) (pieces : list str) : str :=
  match pieces with
  | [] => []
  | [p] => p
  | p :: ps => p ++ sep ++ join sep ps
  end.

(** [xs[-n:]] for [n >= 1]: the last [n] elements, all of them when
    there are fewer. *)
Definition last_n {A} (n : nat) (xs : list A) : list A :=
  skipn (length xs - n) xs.

(** [xs[k:]] for [k >= 0]. *)
Definition from_index {A} (k : nat) (xs : list A) : list A := skipn k xs.

(** [xs[:k]] for [k >= 0]. *)
Definition up_to {A} (k : nat) (xs : list A) : list A := firstn k xs.

(** [xs[-tail:]] for an integer [tail] other than zero: a positive
    [tail] keeps the last [tail] elements, a negative one drops the
    first [-tail]. *)
Definition slice_from_neg {A} (tail : Z) (xs : list A) : list A :=
  if (0 <? tail)%Z then last_n (Z.to_nat tail) xs
  else from_index (Z.to_nat (- tail)) xs.

(** [c.lower()] on ASCII text: the letters [A] to [Z] go to [a] to [z]
    and the other ASCII characters stay.  The Unicode case tables of
    the interpreter are not part of the model, so beyond ASCII [lower]
    is not [str.lower]; the search, which lowers texts of any kind,
    takes the lowering as a parameter. *)
Definition lower_char (c : char) : char :=
  if (65 <=? c) && (c <=? 90) then c + 32 else c.

Definition lower (s : str) : str := List.map lower_char s.

(** [c.isspace()]: the white space of [str.strip]. *)
Definition isspace (c : char) : bool :=
  ((9 <=? c) && (c <=? 13)) || ((28 <=? c) && (c <=? 32))
  || (c =? 0x85) || (c =? 0xA0) || (c =? 0x1680)
  || ((0x2000 <=? c) && (c <=? 0x200A))
  || (c =? 0x2028) || (c =? 0x2029) || (c =? 0x202F)
  || (c =? 0x205F) || (c =? 0x3000).

Fixpoint lstrip (s : str) : str :=
  match s with
  | c :: s' => if isspace c then lstrip s' else s
  | [] => []
  end.

(** [s.strip()]. *)
Definition strip (s : str) : str := rev (lstrip (rev (lstrip s))).

(** Insertion into a list sorted by [key], before the first element
    whose key is not smaller: equal keys keep their order. *)
Fixpoint insert_by {A} (key : A -> str) (x : A) (l : list A) : list A :=
  match l with
  | [] => [x]
  | y :: l' =>
      if str_leb (key x) (key y) then x :: l
      else y :: insert_by key x l'
  end.

(** [a] comes no later than [b] in the order of the keys. *)
Definition key_le {A} (key : A -> str) (a b : A) : Prop :=
  str_leb (key a) (key b) = true.

(** [sorted(xs, key=key)]: the stable sort by [key]. *)
Definition sorted {A} (key : A -> str) (xs : list A) : list A :=
  fold_right (insert_by key) [] xs.

(** [sorted(xs, key=key, reverse=True)]: descending, and still stable
    (Python reverses the list, sorts it, and reverses the result). *)
Definition sorted_reverse {A} (key : A -> str) (xs : list A) : list A :=
  rev (sorted key (rev xs)).

(** The value of a hexadecimal digit. *)
Definition hex_digit (c : char) : N :=
  if c <=? 57 then c - 48 else if c <=? 70 then c - 55 else c - 87.

(** [int(h, 16)] for four hexadecimal digits. *)
Definition hex4 (h1 h2 h3 h4 : char) : N :=
  ((hex_digit h1 * 16 + hex_digit h2) * 16 + hex_digit h3) * 16
  + hex_digit h4.

(** [str(n)] for a natural number. *)
Fixpoint digits (fuel : nat) (n : N) (acc : str) : str :=
  match fuel with
  | O => acc
  | S fuel' =>
      let acc' := (48 + n mod 10) :: acc in
      if n <? 10 then acc' else digits fuel' (n / 10) acc'
  end.

Definition str_of_N (n : N) : str := digits (S (N.to_nat (N.log2 n))) n [].

End Py.


(** ** The three regular expressions of the script *)

Module Re.

(** The class [[0-9a-fA-F]]. *)
Definition is_hex (c : char) : bool :=
  ((48 <=? c) && (c <=? 57)) || ((97 <=? c) && (c <=? 102))
  || ((65 <=? c) && (c <=? 70)).

(** The pattern [\\u([0-9a-fA-F]{4})] matches at the head of the text
    [c :: c1 :: h1 :: h2 :: h3 :: h4 :: _]. *)
Definition escape_here (c c1 h1 h2 h3 h4 : char) : bool :=
  (c =? BACKSLASH) && (c1 =? LOWER_U)
  && is_hex h1 && is_hex h2 && is_hex h3 && is_hex h4.

(** [re.sub(r'\\u([0-9a-fA-F]{4})', replace, content)]: the text is
    scanned from the left; at a match [replace] is given groups 0 and 1
    and the scan goes on behind the match, otherwise the character is
    kept. *)
Fixpoint sub_unicode_escape (replace : str -> str -> str) (content : str)
  : str :=
  match content with
  | [] => []
  | c :: rest =>
      match rest with
      | c1 :: h1 :: h2 :: h3 :: h4 :: after =>
          if escape_here c c1 h1 h2 h3 h4
          then replace [c; c1; h1; h2; h3; h4] [h1; h2; h3; h4]
               ++ sub_unicode_escape replace after
          else c :: sub_unicode_escape replace rest
      | _ => c :: sub_unicode_escape replace rest
      end
  end.

(** The text starts with four hexadecimal digits. *)
Definition four_hex (s : str) : bool :=
  match s with
  | h1 :: h2 :: h3 :: h4 :: _ => is_hex h1 && is_hex h2 && is_hex h3 && is_hex h4
  | _ => false
  end.

Definition HUMAN_MARK : str := Eval cbv in NL :: lit "Human:" ++ NL :: lit "Content:" ++ [NL].
Definition ASSISTANT_MARK : str := Eval cbv in NL :: lit "Assistant:" ++ NL :: lit "Content:" ++ [NL].

(** [re.split(r'\n(Human|Assistant):\nContent:\n', content)]: the
    pieces between the matches, each match leaving its group (the role)
    between two pieces.  [skip] counts the characters of a match that
    are still to be passed over. *)
Fixpoint split_roles_from (skip : nat) (content : str) : list str :=
  match content with
  | [] => [[]]
  | c :: rest =>
      match skip with
      | S skip' => split_roles_from skip' rest
      | O =>
          if Py.startswith HUMAN_MARK content
          then [] :: lit "Human"
               :: split_roles_from (length HUMAN_MARK - 1) rest
          else if Py.startswith ASSISTANT_MARK content
          then [] :: lit "Assistant"
               :: split_roles_from (length ASSISTANT_MARK - 1) rest
          else match split_roles_from O rest with
               | [] => [[c]]
               | piece :: pieces => (c :: piece) :: pieces
               end
      end
  end.

Definition split_roles (content : str) : list str :=
  split_roles_from O content.

(** [[\s\S]*?\n\]] at the head of [s]: the shortest prefix that ends
    in a line break followed by a closing bracket. *)
Fixpoint lazy_to_close (s : str) : option str :=
  match s with
  | [] => None
  | c :: s' =>
      if Py.startswith [NL; 93] s then Some [NL; 93]
      else option_map (cons c) (lazy_to_close s')
  end.

(** [re.search(r'\[[\s\S]*?\n\]', s)], giving [match.group()]: the
    first position where the pattern matches wins. *)
Fixpoint search_array (s : str) : option str :=
  match s with
  | [] => None
  | c :: s' =>
      if c =? 91
      then match lazy_to_close s' with
           | Some m => Some (c :: m)
           | None => search_array s'
           end
      else search_array s'
  end.

End Re.

(** ** [json.loads]

    The decoder of the standard library, as its scanner is written: a
    recursive descent over the text.  Two limits of the interpreter
    make it fail with an exception that is no [JSONDecodeError]: an
    integer of more than [MAX_STR_DIGITS] digits raises [ValueError],
    and a value nested deeper than the recursion depth that is left
    raises [RecursionError].  How much depth is left depends on the
    interpreter and on the callers, so the decoder takes it as an
    argument; [RECURSION_LIMIT] is the default of
    [sys.getrecursionlimit()]. *)

Module Json.

#[warnings="-register-all"]
Inductive value : Type :=
| Null
| Bool (b : bool)
| Int (negative : bool) (magnitude : N)
| Float (negative : bool) (mantissa : N) (exp10 : Z)
| NaN
| Infinity (negative : bool)
| String (s : str)
| Array (items : list value)
| Object (members : list (str * value)).

(** What a scanning function gives back: a value and the text behind
    it, a decoding error ([Invalid]), or another exception ([Failed]).
    [Exhausted] is the recursion of the model running out of fuel;
    [decode] never meets it (lemma [JsonFacts.decode_fuel]). *)
Inductive scan (A : Type) : Type :=
| Scanned (a : A) (rest : str)
| Invalid
| Failed (e : exn)
| Exhausted.
Arguments Scanned {A} a rest.
Arguments Invalid {A}.
Arguments Failed {A} e.
Arguments Exhausted {A}.

(** [sys.int_info.default_max_str_digits]. *)
Definition MAX_STR_DIGITS : nat := 4300.

(** The default of [sys.getrecursionlimit()]. *)
Definition RECURSION_LIMIT : nat := 1000.

Definition is_ws (c : char) : bool :=
  (c =? 32) || (c =? 9) || (c =? 10) || (c =? 13).

Fixpoint skip_ws (s : str) : str :=
  match s with
  | c :: s' => if is_ws c then skip_ws s' else s
  | [] => []
  end.

Definition is_digit (c : char) : bool := (48 <=? c) && (c <=? 57).

Fixpoint span_digits (s : str) : str * str :=
  match s with
  | c :: s' =>
      if is_digit c
      then let (d, r) := span_digits s' in (c :: d, r)
      else ([], s)
  | [] => ([], [])
  end.

Definition N_of_digits (d : str) : N :=
  fold_left (fun acc c => acc * 10 + (c - 48)) d 0.

(** The one-character escapes of a JSON string. *)
Definition simple_escape (e : char) : option char :=
  if e =? 34 then Some 34          (* quote *)
  else if e =? 92 then Some 92     (* backslash *)
  else if e =? 47 then Some 47     (* slash *)
  else if e =? 98 then Some 8      (* b: backspace *)
  else if e =? 102 then Some 12    (* f: form feed *)
  else if e =? 110 then Some 10    (* n: line feed *)
  else if e =? 114 then Some 13    (* r: carriage return *)
  else if e =? 116 then Some 9     (* t: tab *)
  else None.

Definition push (c : char) (r : option (str * str)) : option (str * str) :=
  match r with
  | Some (s, rest) => Some (c :: s, rest)
  | None => None
  end.

(** The text of a string behind its opening quote, up to the closing
    quote (strict mode: no control character, known escapes only; a
    high surrogate escape followed by a low one makes one character). *)
Fixpoint scanstring (s : str) : option (str * str) :=
  match s with
  | [] => None
  | c :: s1 =>
      if c =? 34 then Some ([], s1)
      else if c =? 92 then
        match s1 with
        | [] => None
        | e :: s2 =>
            if e =? 117 then
              match s2 with
              | h1 :: h2 :: h3 :: h4 :: s3 =>
                  if Re.is_hex h1 && Re.is_hex h2 && Re.is_hex h3
                     && Re.is_hex h4
                  then
                    let uni := Py.hex4 h1 h2 h3 h4 in
                    if (0xD800 <=? uni) && (uni <=? 0xDBFF) then
                      match s3 with
                      | b :: u :: g1 :: g2 :: g3 :: g4 :: s4 =>
                          if (b =? 92) && (u =? 117) then
                            if Re.is_hex g1 && Re.is_hex g2 && Re.is_hex g3
                               && Re.is_hex g4
                            then
                              let uni2 := Py.hex4 g1 g2 g3 g4 in
                              if (0xDC00 <=? uni2) && (uni2 <=? 0xDFFF)
                              then push (0x10000 + (uni - 0xD800) * 1024
                                         + (uni2 - 0xDC00)) (scanstring s4)
                              else push uni (scanstring s3)
                            else None
                          else push uni (scanstring s3)
                      | _ => push uni (scanstring s3)
                      end
                    else push uni (scanstring s3)
                  else None
              | _ => None
              end
            else
              match simple_escape e with
              | Some ch => push ch (scanstring s2)
              | None => None
              end
        end
      else if c <? 32 then None
      else push c (scanstring s1)
  end.

(** The parts of a number.  A minus sign, when there is one. *)
Definition scan_sign (s : str) : bool * str :=
  match s with
  | c :: s' => if c =? 45 then (true, s') else (false, s)
  | [] => (false, s)
  end.

(** The integer part: a single zero, or digits that do not start with
    zero. *)
Definition scan_int (s : str) : option (str * str) :=
  match s with
  | [] => None
  | c :: s' =>
      if c =? 48 then Some ([c], s')
      else if is_digit c
           then let (d, r) := span_digits s' in Some (c :: d, r)
           else None
  end.

(** The fraction: a dot and at least one digit, or nothing. *)
Definition scan_frac (s : str) : str * str :=
  match s with
  | dot :: s' =>
      if dot =? 46
      then match span_digits s' with
           | ([], _) => ([], s)
           | (d, r) => (d, r)
           end
      else ([], s)
  | [] => ([], s)
  end.

(** The exponent: [e] or [E], a sign when there is one, and at least
    one digit, or nothing. *)
Definition scan_exp (s : str) : str * bool * str :=
  match s with
  | e :: s' =>
      if (e =? 101) || (e =? 69)
      then
        let (negative, s'') :=
          match s' with
          | c :: t =>
              if c =? 45 then (true, t)
              else if c =? 43 then (false, t)
              else (false, s')
          | [] => (false, s')
          end in
        match span_digits s'' with
        | ([], _) => ([], false, s)
        | (d, r) => (d, negative, r)
        end
      else ([], false, s)
  | [] => ([], false, s)
  end.

(** A number at the head of the text: an integer when it has neither
    fraction nor exponent, a float otherwise.  The integer is made by
    [int], which refuses more than [MAX_STR_DIGITS] digits. *)
Definition scan_number (s : str) : scan value :=
  let (neg, s1) := scan_sign s in
  match scan_int s1 with
  | None => Invalid
  | Some (idigits, r) =>
      let (fdigits, r1) := scan_frac r in
      let '(edigits, eneg, r2) := scan_exp r1 in
      match fdigits, edigits with
      | [], [] =>
          if (MAX_STR_DIGITS <? length idigits)%nat then Failed ValueError
          else Scanned (Int neg (N_of_digits idigits)) r2
      | _, _ =>
          let e := Z.of_N (N_of_digits edigits) in
          Scanned (Float neg (N_of_digits (idigits ++ fdigits))
                     ((if eneg then - e else e)
                      - Z.of_nat (length fdigits))%Z) r2
      end
  end.

(** A named constant at the head of the text. *)
Definition constant (name : str) (v : value) (s : str)
  : option (value * str) :=
  if Py.startswith name s then Some (v, skipn (length name) s) else None.

(** The named constants, tried on their first letter. *)
Definition scan_constant (s : str) : option (value * str) :=
  match s with
  | c :: _ =>
      if c =? 110 then constant (lit "null") Null s
      else if c =? 116 then constant (lit "true") (Bool true) s
      else if c =? 102 then constant (lit "false") (Bool false) s
      else if c =? 78 then constant (lit "NaN") NaN s
      else if c =? 73 then constant (lit "Infinity") (Infinity false) s
      else if c =? 45 then constant (lit "-Infinity") (Infinity true) s
      else None
  | [] => None
  end.

(** The text behind the character [c], when the text starts with it. *)
Definition expect (c : char) (s : str) : option str :=
  match s with
  | c' :: rest => if c' =? c then Some rest else None
  | [] => None
  end.

(** [scan_once] with the loops of an array and of an object.  [depth]
    is the recursion depth that is left: entering an array or an object
    takes one level, and fails when none is left. *)
Fixpoint scan_once (fuel depth : nat) (s : str) : scan value :=
  match fuel with
  | O => Exhausted
  | S fuel' =>
      match s with
      | [] => Invalid
      | c :: s' =>
          if c =? 34 then
            match scanstring s' with
            | Some (k, rest) => Scanned (String k) rest
            | None => Invalid
            end
          else if c =? 123 then
            match depth with
            | O => Failed RecursionError
            | S depth' =>
                match skip_ws s' with
                | [] => Invalid
                | c' :: rest =>
                    if c' =? 125 then Scanned (Object []) rest
                    else object_members fuel' depth' (c' :: rest) []
                end
            end
          else if c =? 91 then
            match depth with
            | O => Failed RecursionError
            | S depth' =>
                match skip_ws s' with
                | [] => Invalid
                | c' :: rest =>
                    if c' =? 93 then Scanned (Array []) rest
                    else array_items fuel' depth' (c' :: rest) []
                end
            end
          else
            match scan_constant s with
            | Some (v, rest) => Scanned v rest
            | None => scan_number s
            end
      end
  end

with array_items (fuel depth : nat) (s : str) (seen : list value)
  : scan value :=
  match fuel with
  | O => Exhausted
  | S fuel' =>
      match scan_once fuel' depth s with
      | Scanned v rest =>
          match skip_ws rest with
          | c :: rest' =>
              if c =? 93 then Scanned (Array (rev (v :: seen))) rest'
              else if c =? 44
                   then array_items fuel' depth (skip_ws rest') (v :: seen)
                   else Invalid
          | [] => Invalid
          end
      | Invalid => Invalid
      | Failed e => Failed e
      | Exhausted => Exhausted
      end
  end

with object_members (fuel depth : nat) (s : str)
  (seen : list (str * value)) : scan value :=
  match fuel with
  | O => Exhausted
  | S fuel' =>
      match expect 34 s with
      | None => Invalid
      | Some s' =>
          match scanstring s' with
          | None => Invalid
          | Some (key, rest) =>
              match expect 58 (skip_ws rest) with
              | None => Invalid
              | Some rest' =>
                  match scan_once fuel' depth (skip_ws rest') with
                  | Scanned v rest'' =>
                      match skip_ws rest'' with
                      | c :: rest3 =>
                          if c =? 125
                          then Scanned (Object (rev ((key, v) :: seen))) rest3
                          else if c =? 44
                               then object_members fuel' depth
                                      (skip_ws rest3) ((key, v) :: seen)
                               else Invalid
                      | [] => Invalid
                      end
                  | Invalid => Invalid
                  | Failed e => Failed e
                  | Exhausted => Exhausted
                  end
              end
          end
      end
  end.

(** [json.JSONDecoder().decode(s)] with [depth] levels of recursion
    left: one value, white space around it and nothing else. *)
Definition decode (depth : nat) (s : str) : scan value :=
  match scan_once (2 * length s + 1) depth (skip_ws s) with
  | Scanned v rest =>
      match skip_ws rest with
      | [] => Scanned v []
      | _ :: _ => Invalid
      end
  | Invalid => Invalid
  | Failed e => Failed e
  | Exhausted => Exhausted
  end.

(** [d.get(key)] on the members of an object: a repeated name keeps its
    last value. *)
Fixpoint get (key : str) (members : list (str * value)) : option value :=
  match members with
  | [] => None
  | (k, v) :: rest =>
      match get key rest with
      | Some v' => Some v'
      | None => if Py.str_eqb k key then Some v else None
      end
  end.

(** A float written as [mantissa * 10^exp10] reads as zero when it is at
    most [2^-1075], half the smallest positive float. *)
Definition float_is_zero (mantissa : N) (exp10 : Z) : bool :=
  if (0 <=? exp10)%Z then mantissa =? 0
  else mantissa * 2 ^ 1075 <=? 10 ^ Z.to_N (- exp10).

(** [bool(v)]. *)
Definition truthy (v : value) : bool :=
  match v with
  | Null => false
  | Bool b => b
  | Int _ n => negb (n =? 0)
  | Float _ m e => negb (float_is_zero m e)
  | NaN | Infinity _ => true
  | String s => match s with [] => false | _ => true end
  | Array items => match items with [] => false | _ => true end
  | Object members => match members with [] => false | _ => true end
  end.

End Json.

(** ** The file system and the streams *)

Record stat_result : Type := { st_size : N; st_mtime : Z }.

(** An entry of the transcript directory. *)
Record dir_entry : Type := { d_name : str; d_stat : stat_result }.

(** What the script can observe of the file system: the entries of
    [TRANSCRIPTS_DIR] in the order the system lists them, whether a path
    exists, what reading a path as UTF-8 text gives (the text, or the
    exception [open] or [read] raises), and whether a path can be opened
    for writing. *)
Record filesystem : Type := {
  listdir : list dir_entry;
  path_exists : str -> bool;
  read_text : str -> result str;
  writable : str -> bool
}.

(** What a run leaves behind. *)
Record io : Type := {
  stdout : str;
  stderr : str;
  written : list (str * str)
}.

Definition io_empty : io := {| stdout := []; stderr := []; written := [] |}.

(** A computation that prints and may raise. *)
Definition IO (A : Type) : Type := io -> result A * io.

Definition ret {A} (a : A) : IO A := fun w => (Ok a, w).

Definition raise {A} (e : exn) : IO A := fun w => (Raise e, w).

Definition bind {A B} (m : IO A) (k : A -> IO B) : IO B :=
  fun w =>
    match m w with
    | (Ok a, w') => k a w'
    | (Raise e, w') => (Raise e, w')
    end.

Definition lift {A} (r : result A) : IO A := fun w => (r, w).

Notation "x <- m ;; k" := (bind m (fun x => k))
  (at level 61, m at next level, right associativity).
Notation "m ;;; k" := (bind m (fun _ => k))
  (at level 61, right associativity).

(** [print(s)]. *)
Definition print (s : str) : IO unit :=
  fun w => (Ok tt, {| stdout := stdout w ++ s ++ [NL];
                      stderr := stderr w;
                      written := written w |}).

(** [print(s, file=sys.stderr)]. *)
Definition print_err (s : str) : IO unit :=
  fun w => (Ok tt, {| stdout := stdout w;
                      stderr := stderr w ++ s ++ [NL];
                      written := written w |}).

(** [sys.exit(code)]. *)
Definition sys_exit {A} (code : N) : IO A := raise (SystemExit code).

(** ** The script *)

Definition TRANSCRIPTS_DIR : str := Eval cbv in lit "/mnt/transcripts".

(** [str(TRANSCRIPTS_DIR / name)]: an absolute [name] stands for itself
    (redundant separators in [name] are not normalised here; they do not
    change the file the system resolves). *)
Definition in_transcripts_dir (name : str) : str :=
  if Py.startswith [47] name then name
  else TRANSCRIPTS_DIR ++ 47 :: name.

Definition is_surrogate (codepoint : N) : bool :=
  (0xD800 <=? codepoint) && (codepoint <=? 0xDFFF).

(** The inner function [replace] of [decode_unicode_escapes]. *)
Definition replace (group0 group1 : str) : str :=
  match group1 with
  | [h1; h2; h3; h4] =>
      let codepoint := Py.hex4 h1 h2 h3 h4 in
      if is_surrogate codepoint then group0 else [codepoint]
  | _ => group0
  end.

(** [s.encode('utf-8', errors='surrogatepass').decode('utf-8',
    errors='replace')]: a surrogate is written as three bytes, none of
    which decodes, so each comes back as U+FFFD; every other character
    comes back as it was. *)
Definition utf8_round_trip (s : str) : str :=
  flat_map (fun c => if is_surrogate c then [0xFFFD; 0xFFFD; 0xFFFD]
                     else [c]) s.

Definition decode_unicode_escapes (content : str) : str :=
  let decoded := Re.sub_unicode_escape replace content in
  utf8_round_trip decoded.

Record transcript : Type := {
  name : str;
  size : N;
  modified : Z;
  path : str
}.

(** [TRANSCRIPTS_DIR.glob("*.txt")]. *)
Definition glob_txt (fs : filesystem) : list dir_entry :=
  filter (fun f => Py.endswith (lit ".txt") (d_name f)) (listdir fs).

(** The loop of [get_transcript_list] over the sorted paths. *)
Fixpoint collect_transcripts (files : list dir_entry) : list transcript :=
  match files with
  | [] => []
  | f :: rest =>
      if Py.str_eqb (d_name f) (lit "journal.txt")
      then collect_transcripts rest
      else {| name := d_name f;
              size := st_size (d_stat f);
              modified := st_mtime (d_stat f);
              path := TRANSCRIPTS_DIR ++ 47 :: d_name f |}
           :: collect_transcripts rest
  end.

(** Paths of one directory compare by their last part, the file name.
    [modified] keeps the time stamp; its ISO-8601 rendering is not
    modelled. *)
Definition get_transcript_list (fs : filesystem) : list transcript :=
  collect_transcripts (Py.sorted d_name (glob_txt fs)).

Definition get_current_transcript (fs : filesystem) : option str :=
  let transcripts := get_transcript_list fs in
  match transcripts with
  | [] => None
  | _ :: _ =>
      match Py.sorted_reverse name transcripts with
      | first :: _ => Some (path first)
      | [] => None
      end
  end.

(** [tail] is [None], or the integer given. *)
Definition read_transcript (fs : filesystem) (path : str) (tail : option Z)
  : result str :=
  match read_text fs path with
  | Raise e => Raise e
  | Ok content =>
      let decoded := decode_unicode_escapes content in
      match tail with
      | Some t =>
          if (t =? 0)%Z then Ok decoded
          else
            let lines := Py.split NL decoded in
            Ok (Py.join [NL] (Py.slice_from_neg t lines))
      | None => Ok decoded
      end
  end.

Record match_line : Type := { line : N; text : str }.

Record search_result : Type := { file : str; matches : list match_line }.

(** [search_transcripts] lowers the query, every content and every
    line with [str.lower], which follows the Unicode case tables of the
    interpreter.  The search is written for any lowering function
    [lower]; [search_transcripts] itself is the search with [Py.lower],
    which is [str.lower] as long as the texts are ASCII. *)
Section Lowering.

Variable lower : str -> str.

(** The inner loop of [search_transcripts] over [enumerate(lines)],
    [i] being the index of the first line of [lines]. *)
Fixpoint matching_lines (query_lower : str) (i : N) (lines : list str)
  : list match_line :=
  match lines with
  | [] => []
  | l :: rest =>
      if Py.contains query_lower (lower l)
      then {| line := i + 1; text := Py.up_to 200 l |}
           :: matching_lines query_lower (i + 1) rest
      else matching_lines query_lower (i + 1) rest
  end.

(** The outer loop of [search_transcripts]. *)
Fixpoint search_in (fs : filesystem) (query_lower : str)
  (transcripts : list transcript) : result (list search_result) :=
  match transcripts with
  | [] => Ok []
  | t :: rest =>
      match read_transcript fs (path t) None with
      | Raise e => Raise e
      | Ok content =>
          let here :=
            if Py.contains query_lower (lower content)
            then
              let found :=
                matching_lines query_lower 0 (Py.split NL content) in
              [{| file := name t; matches := Py.up_to 10 found |}]
            else [] in
          match search_in fs query_lower rest with
          | Raise e => Raise e
          | Ok results => Ok (here ++ results)
          end
      end
  end.

Definition search_transcripts_with (fs : filesystem) (query : str)
  : result (list search_result) :=
  let query_lower := lower query in
  search_in fs query_lower (get_transcript_list fs).

End Lowering.

Definition search_transcripts (fs : filesystem) (query : str)
  : result (list search_result) :=
  search_transcripts_with Py.lower fs query.

(** One round of the loop of [combine_all_transcripts]: the three banner
    lines and the content of [t]. *)
Fixpoint combine_from (fs : filesystem) (transcripts : list transcript)
  : result (list str) :=
  match transcripts with
  | [] => Ok []
  | t :: rest =>
      let rule := repeat 61 80 in
      match read_transcript fs (path t) None with
      | Raise e => Raise e
      | Ok content =>
          match combine_from fs rest with
          | Raise e => Raise e
          | Ok combined =>
              Ok ((NL :: rule)
                  :: (lit "=== FILE: " ++ name t ++ lit " ===")
                  :: (rule ++ [NL])
                  :: content
                  :: combined)
          end
      end
  end.

Definition combine_all_transcripts (fs : filesystem) : result str :=
  match combine_from fs (Py.sorted name (get_transcript_list fs)) with
  | Raise e => Raise e
  | Ok combined => Ok (Py.join [NL] combined)
  end.

(** [json.loads(s)] with [depth] levels of recursion left.  The fuel of
    [Json.decode] is always enough (lemma [JsonFacts.decode_fuel]), so
    the last case is never taken. *)
Definition json_loads_within (depth : nat) (s : str) : result Json.value :=
  match Json.decode depth s with
  | Json.Scanned v _ => Ok v
  | Json.Invalid => Raise JSONDecodeError
  | Json.Failed e => Raise e
  | Json.Exhausted => Raise RecursionError
  end.

(** [json.loads(s)] with the whole default recursion limit at its
    disposal.  The interpreter gives it less, by the frames of the
    callers; statements that must not depend on this are made for every
    depth, with [json_loads_within]. *)
Definition json_loads (s : str) : result Json.value :=
  json_loads_within Json.RECURSION_LIMIT s.

Record message : Type := { role : str; msg_text : str }.

Definition nonempty {A} (l : list A) : bool :=
  match l with [] => false | _ :: _ => true end.

(** [item.get(key)] on a decoded value: only an object has [get]. *)
Definition item_get (key : str) (item : Json.value)
  : result (option Json.value) :=
  match item with
  | Json.Object members => Ok (Json.get key members)
  | _ => Raise AttributeError
  end.

(** [v == "text"] for what [get] returned. *)
Definition is_text (v : option Json.value) : bool :=
  match v with
  | Some (Json.String s) => Py.str_eqb s (lit "text")
  | _ => false
  end.

Definition truthy (v : option Json.value) : bool :=
  match v with
  | Some v' => Json.truthy v'
  | None => false
  end.

(** [v.strip()]: only a string has [strip]. *)
Definition value_strip (v : option Json.value) : result str :=
  match v with
  | Some (Json.String s) => Ok (Py.strip s)
  | _ => Raise AttributeError
  end.

(** The loop [for item in data] of [extract_messages].  The role is
    what the pattern of [re.split] captured, [Human] or [Assistant], so
    [Py.lower] is [str.lower] on it. *)
Fixpoint extract_items (role : str) (data : list Json.value)
  (messages : list message) : result (list message) :=
  match data with
  | [] => Ok messages
  | item :: rest =>
      match item_get (lit "type") item with
      | Raise e => Raise e
      | Ok type =>
          if is_text type
          then
            match item_get (lit "text") item with
            | Raise e => Raise e
            | Ok text_field =>
                if truthy text_field
                then
                  match value_strip text_field with
                  | Raise e => Raise e
                  | Ok text =>
                      if nonempty text && negb (Py.str_eqb text (lit " "))
                      then extract_items role rest
                             (messages ++ [{| role := Py.lower role;
                                              msg_text := text |}])
                      else extract_items role rest messages
                  end
                else extract_items role rest messages
            end
          else extract_items role rest messages
      end
  end.

(** What [for item in data] runs over.  The fragment given to
    [json.loads] starts with a bracket, so [data] is a list; the other
    cases are Python's for completeness. *)
Definition iterate (data : Json.value) : result (list Json.value) :=
  match data with
  | Json.Array items => Ok items
  | Json.Object members => Ok (List.map (fun kv => Json.String (fst kv)) members)
  | Json.String s => Ok (List.map (fun c => Json.String [c]) s)
  | _ => Raise TypeError
  end.

(** The body of the [try] of [extract_messages] for one segment, with
    [depth] levels of recursion left for [json.loads]. *)
Definition extract_segment_within (depth : nat) (role json_content : str)
  (messages : list message) : result (list message) :=
  match Re.search_array json_content with
  | Some fragment =>
      match json_loads_within depth fragment with
      | Raise e => Raise e
      | Ok data =>
          match iterate data with
          | Raise e => Raise e
          | Ok items => extract_items role items messages
          end
      end
  | None => Ok messages
  end.

(** The loop [for i in range(1, len(parts), 2)], on [parts[1:]]. *)
Fixpoint extract_from_within (depth : nat) (parts : list str)
  (messages : list message) : result (list message) :=
  match parts with
  | [] => Ok messages
  | role :: after_role =>
      match after_role with
      | [] => Ok messages
      | json_content :: rest =>
          if nonempty role && nonempty json_content
          then
            match extract_segment_within depth role json_content messages
            with
            | Ok messages' => extract_from_within depth rest messages'
            | Raise JSONDecodeError => extract_from_within depth rest messages
            | Raise e => Raise e
            end
          else extract_from_within depth rest messages
      end
  end.

(** [extract_messages(content)] with [depth] levels of recursion left
    for each call of [json.loads]. *)
Definition extract_messages_within (depth : nat) (content : str)
  : result (list message) :=
  let parts := Re.split_roles content in
  extract_from_within depth (Py.from_index 1 parts) [].

(** [extract_messages(content)] with the whole default recursion limit
    left. *)
Definition extract_messages (content : str) : result (list message) :=
  extract_messages_within Json.RECURSION_LIMIT content.

(** [truthy(n)] for an optional integer argument. *)
Definition given (n : option Z) : option Z :=
  match n with
  | Some z => if (z =? 0)%Z then None else Some z
  | None => None
  end.

(** [xs[:k]] for any integer [k]: a negative [k] counts from the end. *)
Definition up_to_Z {A} (k : Z) (xs : list A) : list A :=
  if (0 <=? k)%Z then Py.up_to (Z.to_nat k) xs
  else Py.up_to (length xs - Z.to_nat (- k)) xs.

Definition format_message (max_length : option Z) (msg : message) : str :=
  let role :=
    if Py.str_eqb (role msg) (lit "human") then lit "HUMAN"
    else lit "CLAUDE" in
  let text := msg_text msg in
  let text :=
    match given max_length with
    | Some n =>
        if (n <? Z.of_nat (length text))%Z
        then up_to_Z n text ++ lit "..."
        else text
    | None => text
    end in
  NL :: lit "[" ++ role ++ lit "]:" ++ NL :: text ++ [NL].

Definition format_messages (messages : list message)
  (max_length : option Z) : str :=
  Py.join [NL] (List.map (format_message max_length) messages).

(** The parsed command line. *)
Record args : Type := {
  arg_list : bool;
  arg_all : bool;
  arg_file : option str;
  arg_search : option str;
  arg_tail : option Z;
  arg_messages : bool;
  arg_output : option str;
  arg_truncate : option Z
}.

(** An optional string argument counts when it is given and not empty. *)
Definition given_str (s : option str) : option str :=
  match s with
  | Some (c :: s') => Some (c :: s')
  | _ => None
  end.

(** [int / 1024] rounded to a float: exact below [2^53], to the nearest
    53-bit value (ties to even) above.  The result is in units of
    [1/1024]. *)
Definition float_of_size (size : N) : N :=
  let bits := N.size size in
  if bits <=? 53 then size
  else
    let shift := bits - 53 in
    let m := N.shiftr size shift in
    let r := size mod 2 ^ shift in
    let half := 2 ^ (shift - 1) in
    let m' := if (half <? r) || ((r =? half) && N.odd m) then m + 1 else m in
    N.shiftl m' shift.

(** [f"{size/1024:.1f}"]: one decimal, ties to even. *)
Definition kb_1f (size : N) : str :=
  let num := float_of_size size * 10 in
  let t := num / 1024 in
  let r := num mod 1024 in
  let t' := if (512 <? r) || ((r =? 512) && N.odd t) then t + 1 else t in
  Py.str_of_N (t' / 10) ++ 46 :: Py.str_of_N (t' mod 10).

(** [Path(p).name]: the text behind the last separator. *)
Definition path_name (p : str) : str :=
  match rev (Py.split 47 p) with
  | last :: _ => last
  | [] => []
  end.

Fixpoint print_listing (transcripts : list transcript) : IO unit :=
  match transcripts with
  | [] => ret tt
  | t :: rest =>
      print (lit "  " ++ name t ++ lit " (" ++ kb_1f (size t) ++ lit " KB)") ;;;
      print_listing rest
  end.

Fixpoint print_matches (ms : list match_line) : IO unit :=
  match ms with
  | [] => ret tt
  | m :: rest =>
      print (lit "  L" ++ Py.str_of_N (line m) ++ lit ": "
             ++ Py.up_to 80 (text m) ++ lit "...") ;;;
      print_matches rest
  end.

Fixpoint print_results (results : list search_result) : IO unit :=
  match results with
  | [] => ret tt
  | r :: rest =>
      print (lit "=== " ++ file r ++ lit " ===") ;;;
      print_matches (matches r) ;;;
      print_results rest
  end.

(** [with open(path, 'w', encoding='utf-8') as f: f.write(result)]. *)
Definition write_file (fs : filesystem) (path result : str) : IO unit :=
  fun w =>
    if writable fs path
    then (Ok tt, {| stdout := stdout w;
                    stderr := stderr w;
                    written := written w ++ [(path, result)] |})
    else (Raise OSError, w).

(** The part of [main] behind the choice of a mode: message extraction
    and output.  [depth] is the depth of recursion the interpreter has
    left for [json.loads]. *)
Definition finish_within (depth : nat) (fs : filesystem) (a : args)
  (result : str) : IO unit :=
  result <- (if arg_messages a && nonempty result
             then messages <- lift (extract_messages_within depth result) ;;
                  ret (format_messages messages (arg_truncate a))
             else ret result) ;;
  match given_str (arg_output a) with
  | Some out =>
      write_file fs out result ;;;
      print (lit "Saved: " ++ out)
  | None =>
      if nonempty result then print result else ret tt
  end.

Definition finish (fs : filesystem) (a : args) (result : str) : IO unit :=
  finish_within Json.RECURSION_LIMIT fs a result.

(** [main], with what the interpreter brings as parameters: the
    lowering function of [str.lower] and the depth of recursion left
    for [json.loads]. *)
Definition main_with (lower : str -> str) (depth : nat)
  (fs : filesystem) (a : args) : IO unit :=
  if arg_list a then
    let transcripts := get_transcript_list fs in
    print (lit "Found " ++ Py.str_of_N (N.of_nat (length transcripts))
           ++ lit " transcripts:" ++ [NL]) ;;;
    print_listing transcripts
  else
    match given_str (arg_search a) with
    | Some query =>
        results <- lift (search_transcripts_with lower fs query) ;;
        match results with
        | [] => print (lit "No matches for: " ++ query)
        | _ :: _ => print_results results
        end
    | None =>
        if arg_all a then
          result <- lift (combine_all_transcripts fs) ;;
          finish_within depth fs a result
        else
          match given_str (arg_file a) with
          | Some file =>
              let path := in_transcripts_dir file in
              if negb (path_exists fs path) then
                print (lit "Error: " ++ file ++ lit " not found") ;;;
                sys_exit 1
              else
                result <- lift (read_transcript fs path (arg_tail a)) ;;
                finish_within depth fs a result
          | None =>
              match get_current_transcript fs with
              | None =>
                  print (lit "No transcripts found") ;;;
                  sys_exit 1
              | Some current =>
                  print_err (lit "Current: " ++ path_name current ++ [NL]) ;;;
                  result <- lift (read_transcript fs current (arg_tail a)) ;;
                  finish_within depth fs a result
              end
          end
    end.

(** [main] with the lowering of ASCII texts, called with the whole
    recursion limit left.  The lowering only matters to the search and
    the depth only to the extraction of messages; what is stated of
    these two beyond ASCII texts and for other depths is stated with
    [main_with]. *)
Definition main (fs : filesystem) (a : args) : IO unit :=
  main_with Py.lower Json.RECURSION_LIMIT fs a.

(** A run of the script from empty streams: how it ended and what it
    printed. *)
Definition run (fs : filesystem) (a : args) : result unit * io :=
  main fs a io_empty.

Definition run_with (lower : str -> str) (depth : nat)
  (fs : filesystem) (a : args) : result unit * io :=
  main_with lower depth fs a io_empty.

(** ** A small directory to run the script on *)

Fixpoint lookup (p : str) (files : list (str * str)) : result str :=
  match files with
  | [] => Raise OSError
  | (n, content) :: rest =>
      if Py.str_eqb (in_transcripts_dir n) p then Ok content
      else lookup p rest
  end.

(** The file system whose transcript directory holds [files], given as
    names and contents, and nothing else. *)
Definition directory (files : list (str * str)) : filesystem := {|
  listdir :=
    List.map (fun f => {| d_name := fst f;
                          d_stat := {| st_size := N.of_nat (length (snd f));
                                       st_mtime := 0 |} |}) files;
  path_exists := fun p =>
    match lookup p files with Ok _ => true | Raise _ => false end;
  read_text := fun p => lookup p files;
  writable := fun _ => true
|}.

Definition no_args : args := {|
  arg_list := false; arg_all := false; arg_file := None;
  arg_search := None; arg_tail := None; arg_messages := false;
  arg_output := None; arg_truncate := None
|}.

(** Text literals of the examples: [|] stands for a line break and ['] for a
    double quote. *)
Definition txt (s : string) : str :=
  List.map (fun c => if c =? 124 then NL else if c =? 39 then 34 else c)
    (lit s).

(** The entry the words "sorts last in descending order" single out: the
    last element of the descending sort. *)
Definition sorts_last_descending (transcripts : list transcript)
  : option transcript :=
  hd_error (rev (Py.sorted_reverse name transcripts)).

(** Default mode: none of [--list], [--search], [--all], [--file]. *)
Definition default_mode (a : args) : Prop :=
  arg_list a = false /\ given_str (arg_search a) = None
  /\ arg_all a = false /\ given_str (arg_file a) = None.

Definition two_files : filesystem :=
  directory [(lit "a.txt", lit "first"); (lit "b.txt", lit "second")].

Definition with_journal : filesystem :=
  directory [(lit "journal.txt", lit "notes"); (lit "b.txt", lit "second")].

(** The entry of [b.txt] in the listing of [with_journal]. *)
Definition b_transcript : transcript := {|
  name := lit "b.txt";
  size := 6;
  modified := 0;
  path := lit "/mnt/transcripts/b.txt"
|}.

(** A directory with one transcript of ten lines, the last of them
    without a line break behind it. *)
Definition ten_lines : filesystem :=
  directory [(lit "t.txt", txt "l1|l2|l3|l4|l5|l6|l7|l8|l9|l10")].

(** The text of the extraction example: a line break, the line
    [Human:], the line [Content:], and an array with one object on
    lines of their own. *)
Definition hi_text : str :=
  txt "|Human:|Content:|[|{'type':'text','text':'hi'}|]|".

(** The same layout with a bare string as the element of the array. *)
Definition bare_string_text : str :=
  txt "|Human:|Content:|[|'x'|]|".

(** A segment whose array does not parse, followed by one that does. *)
Definition broken_then_good_text : str :=
  txt "|Human:|Content:|[|{oops|]|Assistant:|Content:|[|{'type':'text','text':'ok'}|]|".

(** [--file missing.txt]. *)
Definition missing_file_args : args := {|
  arg_list := false; arg_all := false; arg_file := Some (lit "missing.txt");
  arg_search := None; arg_tail := None; arg_messages := false;
  arg_output := None; arg_truncate := None
|}.

(** [--list --file missing.txt]. *)
Definition list_and_missing_file_args : args := {|
  arg_list := true; arg_all := false; arg_file := Some (lit "missing.txt");
  arg_search := None; arg_tail := None; arg_messages := false;
  arg_output := None; arg_truncate := None
|}.

(** A directory with one transcript of two lines, [x] and [y]. *)
Definition two_line_file : filesystem :=
  directory [(lit "a.txt", txt "x|y")].

(** [--search] with a query of two lines. *)
Definition two_line_query : str := txt "x|y".

(** A directory with one transcript of three lines, each ended by a line
    break. *)
Definition three_ended_lines : filesystem :=
  directory [(lit "t.txt", txt "a|b|c|")].

(** A file of ten lines, each ended by a line break. *)
Definition ten_ended_lines : filesystem :=
  directory [(lit "t.txt", txt "l1|l2|l3|l4|l5|l6|l7|l8|l9|l10|")].

(** A directory with three transcripts, a journal and a file that is no
    transcript, listed out of order. *)
Definition mixed_directory : filesystem :=
  directory [(lit "c.txt", txt "third|C");
             (lit "journal.txt", lit "notes");
             (lit "a.txt", txt "first|A|");
             (lit "notes.md", lit "x");
             (lit "b.txt", lit "second B")].

(** A directory that lists one transcript which cannot be read. *)
Definition unreadable_directory : filesystem := {|
  listdir := [{| d_name := lit "a.txt";
                 d_stat := {| st_size := 1; st_mtime := 0 |} |}];
  path_exists := fun _ => true;
  read_text := fun _ => Raise OSError;
  writable := fun _ => true
|}.

(** Whether [search_transcripts] reports the transcript [t]: its content
    holds the lowered query. *)
Definition search_hit (lower : str -> str) (fs : filesystem) (query : str)
  (t : transcript) : bool :=
  match read_transcript fs (path t) None with
  | Ok content => Py.contains (lower query) (lower content)
  | Raise _ => false
  end.

(** What [combine_all_transcripts] writes for one transcript: a rule
    behind a line break, the banner, a rule before a line break, and
    the content, each on from the next by a line break. *)
Definition transcript_block (file_name content : str) : str :=
  Py.join [NL]
    [NL :: repeat 61 80;
     lit "=== FILE: " ++ file_name ++ lit " ===";
     repeat 61 80 ++ [NL];
     content].

(** The decoded content of a transcript, empty when it cannot be
    read. *)
Definition content_of (fs : filesystem) (t : transcript) : str :=
  match read_transcript fs (path t) None with
  | Ok content => content
  | Raise _ => []
  end.

(** The roles stand at every second place of [parts[1:]], and each is
    one of the two names of the pattern. *)
Fixpoint roles_alternate (parts : list str) : Prop :=
  match parts with
  | [] => True
  | role :: after_role =>
      (role = lit "Human" \/ role = lit "Assistant")
      /\ match after_role with
         | [] => True
         | _ :: rest => roles_alternate rest
         end
  end.

(** A message as the extraction makes them: one of the two roles in
    lower case, and a text that is not empty and has no white space at
    either end. *)
Definition well_formed (m : message) : Prop :=
  (role m = lit "human" \/ role m = lit "assistant")
  /\ msg_text m <> []
  /\ Py.strip (msg_text m) = msg_text m.

(** The arguments [a] with another [--tail]. *)
Definition with_tail (a : args) (tail : option Z) : args := {|
  arg_list := arg_list a; arg_all := arg_all a; arg_file := arg_file a;
  arg_search := arg_search a; arg_tail := tail;
  arg_messages := arg_messages a; arg_output := arg_output a;
  arg_truncate := arg_truncate a
|}.


(** A directory whose only file is the journal. *)
Definition journal_only : filesystem :=
  directory [(lit "journal.txt", lit "notes")].


(** [--all]. *)
Definition all_args : args := {|
  arg_list := false; arg_all := true; arg_file := None;
  arg_search := None; arg_tail := None; arg_messages := false;
  arg_output := None; arg_truncate := None
|}.

(** [--file a.txt --output out.txt]. *)
Definition file_to_output_args : args := {|
  arg_list := false; arg_all := false; arg_file := Some (lit "a.txt");
  arg_search := None; arg_tail := None; arg_messages := false;
  arg_output := Some (lit "out.txt"); arg_truncate := None
|}.

(** [--file a.txt --messages]. *)
Definition file_messages_args : args := {|
  arg_list := false; arg_all := false; arg_file := Some (lit "a.txt");
  arg_search := None; arg_tail := None; arg_messages := true;
  arg_output := None; arg_truncate := None
|}.

(** [--search zebra]. *)
Definition search_zebra_args : args := {|
  arg_list := false; arg_all := false; arg_file := None;
  arg_search := Some (lit "zebra"); arg_tail := None; arg_messages := false;
  arg_output := None; arg_truncate := None
|}.

(** The head of the block [format_messages] prints for a message. *)
Definition block_head (m : message) : str :=
  NL :: lit "["
     ++ (if Py.str_eqb (role m) (lit "human") then lit "HUMAN"
         else lit "CLAUDE")
     ++ lit "]:" ++ [NL].

(** A segment whose array holds one integer of 4301 digits. *)
Definition long_integer_fragment : str :=
  txt "[|" ++ repeat 49 4301 ++ txt "|]".

Definition long_integer_text : str :=
  txt "|Human:|Content:|" ++ long_integer_fragment ++ [NL].

(** A segment that opens 2000 arrays and closes none. *)
Definition deep_nesting_fragment : str := repeat 91 2000 ++ txt "|]".

Definition deep_nesting_text : str :=
  txt "|Human:|Content:|" ++ deep_nesting_fragment ++ [NL].

(** A lowering works line by line when lowering a text and cutting it at
    the line breaks gives the lowered lines of the text: no character is
    lowered to or from a line break, and none with regard to what stands
    beyond a line break.  [str.lower] is such a lowering. *)
Definition line_wise (lower : str -> str) : Prop :=
  forall s, Py.split NL (lower s) = List.map lower (Py.split NL s).

(** * Properties *)

(** ** The order on strings and the sort *)

Module PyFacts.
Import Py.

Lemma str_eqb_eq (a b : str) : str_eqb a b = true <-> a = b.
Proof.
  revert b; induction a as [|x a IH]; intros [|y b]; simpl;
    try (split; [discriminate | discriminate]); try tauto.
  rewrite andb_true_iff, N.eqb_eq, IH.
  split; [intros [-> ->]; reflexivity | intros H; inversion H; auto].
Qed.

Lemma str_eqb_refl (a : str) : str_eqb a a = true.
Proof. apply str_eqb_eq; reflexivity. Qed.

Lemma str_leb_refl (a : str) : str_leb a a = true.
Proof.
  induction a as [|x a IH]; simpl; [reflexivity|].
  rewrite N.ltb_irrefl; exact IH.
Qed.

Lemma str_leb_total (a b : str) : str_leb a b = true \/ str_leb b a = true.
Proof.
  revert b; induction a as [|x a IH]; intros [|y b]; simpl; auto.
  destruct (N.ltb_spec x y), (N.ltb_spec y x); auto; lia.
Qed.

Lemma str_leb_trans (a b c : str) :
  str_leb a b = true -> str_leb b c = true -> str_leb a c = true.
Proof.
  revert b c; induction a as [|x a IH]; intros [|y b] [|z c]; simpl;
    try reflexivity; try discriminate.
  destruct (N.ltb_spec x y), (N.ltb_spec y x), (N.ltb_spec y z),
    (N.ltb_spec z y), (N.ltb_spec x z), (N.ltb_spec z x);
    try reflexivity; try discriminate; try lia.
  apply IH.
Qed.

Section Sorting.
Context {A : Type} (key : A -> str).

Lemma insert_by_perm (x : A) (l : list A) :
  Permutation (insert_by key x l) (x :: l).
Proof.
  induction l as [|y l IH]; simpl; [reflexivity|].
  destruct (str_leb (key x) (key y)); [reflexivity|].
  rewrite IH; apply perm_swap.
Qed.

Lemma sorted_perm (xs : list A) : Permutation (sorted key xs) xs.
Proof.
  induction xs as [|x xs IH]; simpl; [reflexivity|].
  rewrite insert_by_perm, IH; reflexivity.
Qed.

Lemma insert_by_sorted (x : A) (l : list A) :
  StronglySorted (key_le key) l ->
  StronglySorted (key_le key) (insert_by key x l).
Proof.
  induction 1 as [|y l Hl IH Hy]; simpl.
  - constructor; constructor.
  - destruct (str_leb (key x) (key y)) eqn:E.
    + constructor; [constructor; assumption|].
      constructor; [exact E|].
      eapply Forall_impl; [|exact Hy].
      intros z Hz; unfold key_le in *; eapply str_leb_trans; eauto.
    + constructor; [exact IH|].
      eapply Permutation_Forall; [symmetry; apply insert_by_perm|].
      constructor; [|exact Hy].
      unfold key_le; destruct (str_leb_total (key x) (key y)); congruence.
Qed.

Lemma sorted_sorted (xs : list A) :
  StronglySorted (key_le key) (sorted key xs).
Proof.
  induction xs as [|x xs IH]; simpl; [constructor|].
  apply insert_by_sorted; exact IH.
Qed.

Lemma sorted_last_greatest (l : list A) (m : A) :
  StronglySorted (key_le key) (l ++ [m]) ->
  forall x, In x (l ++ [m]) -> key_le key x m.
Proof.
  induction l as [|y l IH]; simpl; intros HS x Hx.
  - destruct Hx as [<-|[]]; apply str_leb_refl.
  - inversion HS as [|? ? HS' Hall]; subst.
    destruct Hx as [<-|Hx]; [|apply IH; assumption].
    rewrite Forall_forall in Hall; apply Hall.
    apply in_or_app; right; left; reflexivity.
Qed.

(** The first element of a descending sort carries the greatest key. *)
Lemma sorted_reverse_head (xs : list A) (first : A) (rest : list A) :
  sorted_reverse key xs = first :: rest ->
  In first xs /\ forall x, In x xs -> key_le key x first.
Proof.
  unfold sorted_reverse; intros E.
  assert (E' : sorted key (rev xs) = rev rest ++ [first]).
  { rewrite <- (rev_involutive (sorted key (rev xs))), E; reflexivity. }
  assert (P : Permutation (rev rest ++ [first]) xs).
  { rewrite <- E', sorted_perm; symmetry; apply Permutation_rev. }
  split.
  - eapply Permutation_in; [exact P|].
    apply in_or_app; right; left; reflexivity.
  - intros x Hx; apply (sorted_last_greatest (rev rest)).
    + rewrite <- E'; apply sorted_sorted.
    + eapply Permutation_in; [symmetry; exact P | exact Hx].
Qed.

Lemma sorted_reverse_nonempty (xs : list A) :
  xs <> [] -> sorted_reverse key xs <> [].
Proof.
  intros Hne E; apply Hne.
  apply Permutation_nil.
  assert (E' : sorted key (rev xs) = []).
  { unfold sorted_reverse in E.
    rewrite <- (rev_involutive (sorted key (rev xs))), E; reflexivity. }
  rewrite <- E', sorted_perm; symmetry; apply Permutation_rev.
Qed.

End Sorting.

(** *** Lines *)

Lemma split_nonempty (sep : char) (s : str) : split sep s <> [].
Proof.
  destruct s as [|c s]; simpl; [discriminate|].
  destruct (c =? sep); [discriminate|].
  destruct (split sep s); discriminate.
Qed.

Lemma split_no_sep (sep : char) (s : str) :
  ~ In sep s -> split sep s = [s].
Proof.
  induction s as [|c s IH]; simpl; intros H; [reflexivity|].
  destruct (N.eqb_spec c sep) as [->|_]; [exfalso; apply H; left; reflexivity|].
  rewrite IH; [reflexivity | intros H'; apply H; right; exact H'].
Qed.

Lemma split_app_sep (sep : char) (p rest : str) :
  ~ In sep p -> split sep (p ++ sep :: rest) = p :: split sep rest.
Proof.
  induction p as [|c p IH]; simpl; intros H.
  - rewrite N.eqb_refl; reflexivity.
  - destruct (N.eqb_spec c sep) as [->|_];
      [exfalso; apply H; left; reflexivity|].
    rewrite IH; [reflexivity | intros H'; apply H; right; exact H'].
Qed.

(** Splitting undoes joining, when no piece holds the separator. *)
Lemma split_join (sep : char) (pieces : list str) :
  pieces <> [] -> Forall (fun p => ~ In sep p) pieces ->
  split sep (join [sep] pieces) = pieces.
Proof.
  induction pieces as [|p [|q ps] IH]; intros Hne Hall; [congruence| |].
  - simpl; apply split_no_sep; inversion Hall; assumption.
  - inversion Hall as [|? ? Hp Hrest]; subst.
    change (join [sep] (p :: q :: ps)) with (p ++ sep :: join [sep] (q :: ps)).
    rewrite split_app_sep by assumption.
    rewrite IH; [reflexivity | discriminate | assumption].
Qed.

(** [last_n n xs] is the end of [xs], [n] elements long when [xs] has
    that many. *)
Lemma last_n_suffix {A} (n : nat) (xs : list A) :
  exists front, xs = front ++ last_n n xs
                /\ length (last_n n xs) = Nat.min n (length xs).
Proof.
  exists (firstn (length xs - n) xs); unfold last_n; split.
  - symmetry; apply firstn_skipn.
  - rewrite length_skipn; lia.
Qed.

(** *** Substrings *)

Lemma startswith_app (x rest : str) : startswith x (x ++ rest) = true.
Proof.
  induction x as [|c x IH]; simpl; [reflexivity|].
  rewrite N.eqb_refl; exact IH.
Qed.

Lemma startswith_contains (x s : str) :
  startswith x s = true -> contains x s = true.
Proof.
  destruct s as [|c s]; simpl.
  - destruct x; [reflexivity | discriminate].
  - intros ->; reflexivity.
Qed.

Lemma contains_app (front x rest : str) :
  contains x (front ++ x ++ rest) = true.
Proof.
  induction front as [|c front IH]; simpl.
  - apply startswith_contains, startswith_app.
  - rewrite IH; apply orb_true_r.
Qed.

(** *** Lines and substrings *)

Lemma lower_char_NL (c : char) : lower_char c = NL <-> c = NL.
Proof.
  unfold lower_char, NL.
  destruct (N.leb_spec 65 c), (N.leb_spec c 90); simpl; lia.
Qed.

Lemma lower_no_NL (s : str) : ~ In NL s -> ~ In NL (lower s).
Proof.
  intros H Hin; apply H.
  unfold lower in Hin; apply in_map_iff in Hin.
  destruct Hin as (c & Hc & Hin).
  apply (proj1 (lower_char_NL c)) in Hc; subst; exact Hin.
Qed.

(** Lowering a text lowers its lines. *)
Lemma split_lower (s : str) :
  split NL (lower s) = List.map lower (split NL s).
Proof.
  induction s as [|c s IH]; [reflexivity|].
  cbn [lower List.map split]; fold (lower s).
  destruct (N.eqb_spec c NL) as [->|Hc].
  - change (lower_char NL =? NL) with true; cbn iota.
    rewrite IH; reflexivity.
  - destruct (N.eqb_spec (lower_char c) NL) as [E|_];
      [apply (proj1 (lower_char_NL c)) in E; contradiction|].
    rewrite IH.
    destruct (split NL s); reflexivity.
Qed.

(** A text without line break that starts [s] starts its first line. *)
Lemma startswith_first_line (q s : str) :
  ~ In NL q -> startswith q s = true ->
  startswith q (hd [] (split NL s)) = true.
Proof.
  revert s; induction q as [|x q IH]; intros s Hq H; [reflexivity|].
  destruct s as [|y s]; [discriminate|].
  simpl in H; apply andb_true_iff in H; destruct H as [Hxy H].
  apply N.eqb_eq in Hxy; subst y.
  cbn [split].
  destruct (N.eqb_spec x NL) as [->|_]; [exfalso; apply Hq; left; reflexivity|].
  assert (IHs : startswith q (hd [] (split NL s)) = true).
  { apply IH; [intros Hin; apply Hq; right; exact Hin | exact H]. }
  destruct (split NL s) as [|p ps] eqn:E.
  - exfalso; exact (split_nonempty _ _ E).
  - simpl; rewrite N.eqb_refl; exact IHs.
Qed.

(** A text without line break that occurs in [s] occurs in one of its
    lines. *)
Lemma contains_some_line (q s : str) :
  ~ In NL q -> contains q s = true ->
  exists l, In l (split NL s) /\ contains q l = true.
Proof.
  intros Hq; induction s as [|c s IH]; intros H.
  - exists []; split; [left; reflexivity | exact H].
  - cbn [contains] in H; apply orb_true_iff in H.
    destruct H as [H|H].
    + exists (hd [] (split NL (c :: s))); split.
      * destruct (split NL (c :: s)) as [|p ps] eqn:E;
          [exfalso; exact (split_nonempty _ _ E) | left; reflexivity].
      * apply startswith_contains, startswith_first_line; assumption.
    + destruct (IH H) as (l & Hl & Hc).
      cbn [split].
      destruct (c =? NL); [exists l; split; [right; exact Hl | exact Hc]|].
      destruct (split NL s) as [|p ps]; [destruct Hl|].
      destruct Hl as [<-|Hl].
      * exists (c :: p); split; [left; reflexivity|].
        cbn [contains]; rewrite Hc; apply orb_true_r.
      * exists l; split; [right; exact Hl | exact Hc].
Qed.

(** *** More on the order and the sort *)

Lemma str_leb_antisym (a b : str) :
  str_leb a b = true -> str_leb b a = true -> a = b.
Proof.
  revert b; induction a as [|x a IH]; intros [|y b]; simpl;
    try reflexivity; try discriminate.
  destruct (N.ltb_spec x y), (N.ltb_spec y x);
    try discriminate; try lia.
  intros H1 H2; assert (x = y) by lia; subst.
  f_equal; apply IH; assumption.
Qed.

(** Sorting a list that is in order already changes nothing. *)
Lemma sorted_of_sorted {A} (key : A -> str) (l : list A) :
  StronglySorted (key_le key) l -> sorted key l = l.
Proof.
  induction 1 as [|x l Hl IH Hx]; [reflexivity|].
  simpl; rewrite IH.
  destruct l as [|y l]; [reflexivity|].
  simpl; inversion Hx as [|? ? Hxy _]; subst.
  unfold key_le in Hxy; rewrite Hxy; reflexivity.
Qed.

(** Joining the lines of a text gives the text back. *)
Lemma join_split (sep : char) (s : str) : join [sep] (split sep s) = s.
Proof.
  induction s as [|c s IH]; [reflexivity|].
  cbn [split].
  destruct (N.eqb_spec c sep) as [->|_].
  - pose proof (split_nonempty sep s) as Hne.
    destruct (split sep s) as [|p ps]; [congruence|].
    change (join [sep] ([] :: p :: ps)) with (sep :: join [sep] (p :: ps)).
    rewrite IH; reflexivity.
  - destruct (split sep s) as [|p ps] eqn:E;
      [exfalso; exact (split_nonempty _ _ E)|].
    rewrite <- IH.
    destruct ps; reflexivity.
Qed.

(** The join of the end of a list of pieces is the end of the join. *)
Lemma join_app_suffix (sep : str) (front back : list str) :
  exists text, join sep (front ++ back) = text ++ join sep back.
Proof.
  induction front as [|p front [text IH]]; [exists []; reflexivity|].
  destruct (front ++ back) as [|q rest] eqn:E.
  - apply app_eq_nil in E; destruct E as [-> ->].
    exists p; simpl; rewrite app_nil_r; reflexivity.
  - exists (p ++ sep ++ text).
    change ((p :: front) ++ back) with (p :: (front ++ back)).
    rewrite E.
    change (join sep (p :: q :: rest)) with (p ++ sep ++ join sep (q :: rest)).
    rewrite IH, !app_assoc; reflexivity.
Qed.

(** *** Stripping *)

Lemma lstrip_idem (s : str) : lstrip (lstrip s) = lstrip s.
Proof.
  induction s as [|c s IH]; [reflexivity|].
  simpl; destruct (isspace c) eqn:E; [exact IH|].
  simpl; rewrite E; reflexivity.
Qed.

Lemma lstrip_head (s : str) (c : char) (r : str) :
  lstrip s = c :: r -> isspace c = false.
Proof.
  induction s as [|x s IH]; [discriminate|].
  simpl; destruct (isspace x) eqn:E; [exact IH|].
  intros H; inversion H; subst; exact E.
Qed.

Lemma lstrip_suffix (s : str) : exists front, s = front ++ lstrip s.
Proof.
  induction s as [|c s [front IH]]; [exists []; reflexivity|].
  simpl; destruct (isspace c).
  - exists (c :: front); simpl; f_equal; exact IH.
  - exists []; reflexivity.
Qed.

(** Stripping a stripped text changes nothing. *)
Lemma strip_idem (s : str) : strip (strip s) = strip s.
Proof.
  unfold strip.
  set (a := lstrip s).
  set (b := lstrip (rev a)).
  assert (H1 : lstrip (rev b) = rev b).
  { destruct b as [|y b'] eqn:Eb; [reflexivity|].
    destruct (lstrip_suffix (rev a)) as [front Hf].
    fold b in Hf; rewrite Eb in Hf.
    assert (Ha : a = rev (y :: b') ++ rev front).
    { rewrite <- rev_app_distr, <- Hf, rev_involutive; reflexivity. }
    destruct (rev (y :: b')) as [|z w] eqn:Er.
    { apply (f_equal (@rev _)) in Er; rewrite rev_involutive in Er.
      discriminate. }
    simpl in Ha; unfold a in Ha.
    apply lstrip_head in Ha.
    simpl; rewrite Ha; reflexivity. }
  rewrite H1, rev_involutive.
  unfold b; rewrite lstrip_idem; reflexivity.
Qed.

(** *** Joining groups of four pieces *)

Lemma join_four (sep a b c d : str) (rest : list str) :
  join sep (a :: b :: c :: d :: rest)
  = join sep [a; b; c; d]
    ++ match rest with
       | [] => []
       | _ :: _ => sep ++ join sep rest
       end.
Proof.
  destruct rest as [|e rest].
  - rewrite app_nil_r; reflexivity.
  - cbn [join]; rewrite <- !app_assoc; reflexivity.
Qed.

(** The last piece of a text is what stands behind its last separator. *)
Lemma split_last (sep : char) (a n : str) :
  ~ In sep n -> split sep (a ++ sep :: n) = split sep a ++ [n].
Proof.
  intros Hn; induction a as [|c a IH].
  - simpl; rewrite N.eqb_refl, split_no_sep by exact Hn; reflexivity.
  - change ((c :: a) ++ sep :: n) with (c :: (a ++ sep :: n)).
    cbn [split]; rewrite IH.
    destruct (c =? sep); [reflexivity|].
    pose proof (split_nonempty sep a) as Hne.
    destruct (split sep a) as [|p ps]; [congruence | reflexivity].
Qed.

Lemma split_pieces_free (sep : char) (s : str) :
  Forall (fun p => ~ In sep p) (split sep s).
Proof.
  induction s as [|c s IH]; cbn [split].
  - constructor; [intros [] | constructor].
  - destruct (N.eqb_spec c sep) as [->|Hc].
    + constructor; [intros [] | exact IH].
    + destruct (split sep s) as [|piece pieces];
        [constructor; [|constructor]; intros [H|[]]; congruence|].
      inversion IH as [|? ? Hp Hrest]; subst.
      constructor; [|exact Hrest].
      intros [H|H]; [congruence | exact (Hp H)].
Qed.

(** A text that [split] leaves in one piece holds no separator. *)
Lemma split_single (sep : char) (s x : str) :
  split sep s = [x] -> ~ In sep s.
Proof.
  intros H.
  pose proof (split_pieces_free sep s) as Hfree.
  pose proof (join_split sep s) as Hj.
  rewrite H in Hfree, Hj; cbn [join] in Hj; subst x.
  inversion Hfree; assumption.
Qed.

End PyFacts.

(** ** Listing and the current transcript *)

Lemma collect_transcripts_names (files : list dir_entry) (t : transcript) :
  In t (collect_transcripts files) ->
  Py.str_eqb (name t) (lit "journal.txt") = false.
Proof.
  induction files as [|f files IH]; simpl; [intros []|].
  destruct (Py.str_eqb (d_name f) (lit "journal.txt")) eqn:E; [exact IH|].
  intros [<-|H]; [exact E | exact (IH H)].
Qed.

(** C8: whatever the directory holds, no transcript of the listing is
    named [journal.txt]. *)
Theorem listing_excludes_journal (fs : filesystem) (t : transcript) :
  In t (get_transcript_list fs) -> name t <> lit "journal.txt".
Proof.
  intros H E.
  apply collect_transcripts_names in H.
  rewrite E, PyFacts.str_eqb_refl in H; discriminate.
Qed.

(** The directory of the witness holds a [journal.txt]; its listing is
    the other file alone. *)
Lemma listing_excludes_journal_witness :
  In (lit "journal.txt") (List.map d_name (listdir with_journal))
  /\ In b_transcript (get_transcript_list with_journal)
  /\ name b_transcript <> lit "journal.txt".
Proof.
  assert (H : In b_transcript (get_transcript_list with_journal))
    by (left; reflexivity).
  split; [left; reflexivity|].
  split; [exact H|].
  exact (listing_excludes_journal with_journal b_transcript H).
Defined.

(** C1, amended: when the listing is not empty, [get_current_transcript]
    returns the path of the first entry of the descending sort by name,
    an entry of the listing whose name is greater than or equal to every
    listed name; and in default mode [main] announces that entry on the
    error stream and reads it. *)
Theorem current_transcript_is_greatest (fs : filesystem) :
  get_transcript_list fs <> [] ->
  exists t,
    In t (get_transcript_list fs)
    /\ (forall t', In t' (get_transcript_list fs) ->
                   Py.str_leb (name t') (name t) = true)
    /\ hd_error (Py.sorted_reverse name (get_transcript_list fs)) = Some t
    /\ get_current_transcript fs = Some (path t)
    /\ forall a, default_mode a ->
         main fs a =
           (print_err (lit "Current: " ++ path_name (path t) ++ [NL]) ;;;
            result <- lift (read_transcript fs (path t) (arg_tail a)) ;;
            finish fs a result).
Proof.
  intros Hne.
  destruct (Py.sorted_reverse name (get_transcript_list fs))
    as [|t rest] eqn:E.
  { exfalso; revert E; apply PyFacts.sorted_reverse_nonempty; exact Hne. }
  destruct (PyFacts.sorted_reverse_head name _ _ _ E) as [Hin Hmax].
  assert (Hcur : get_current_transcript fs = Some (path t)).
  { unfold get_current_transcript.
    destruct (get_transcript_list fs); [contradiction|].
    rewrite E; reflexivity. }
  exists t; repeat split; auto.
  intros a (Hl & Hs & Ha & Hf).
  unfold main, main_with; rewrite Hl, Hs, Ha, Hf, Hcur; reflexivity.
Qed.

Lemma current_transcript_is_greatest_witness :
  get_transcript_list two_files <> []
  /\ exists t,
       In t (get_transcript_list two_files)
       /\ (forall t', In t' (get_transcript_list two_files) ->
                      Py.str_leb (name t') (name t) = true)
       /\ hd_error (Py.sorted_reverse name (get_transcript_list two_files))
          = Some t
       /\ get_current_transcript two_files = Some (path t)
       /\ forall a, default_mode a ->
            main two_files a =
              (print_err (lit "Current: " ++ path_name (path t) ++ [NL]) ;;;
               result <- lift (read_transcript two_files (path t)
                                 (arg_tail a)) ;;
               finish two_files a result).
Proof.
  assert (H : get_transcript_list two_files <> []) by (vm_compute; discriminate).
  split; [exact H | exact (current_transcript_is_greatest two_files H)].
Defined.

(** C1 as stated fails: with [a.txt] and [b.txt] in the directory the
    script picks [b.txt], while the entry that sorts last in descending
    order is [a.txt]. *)
Lemma current_transcript_not_last_descending :
  get_transcript_list two_files <> []
  /\ get_current_transcript two_files = Some (lit "/mnt/transcripts/b.txt")
  /\ option_map path (sorts_last_descending (get_transcript_list two_files))
     = Some (lit "/mnt/transcripts/a.txt")
  /\ get_current_transcript two_files
     <> option_map path (sorts_last_descending (get_transcript_list two_files)).
Proof.
  repeat split; try (vm_compute; discriminate); vm_compute; reflexivity.
Qed.

(** ** The substitution of escapes *)

Module ReFacts.
Import Re.

Lemma escape_here_true (c c1 h1 h2 h3 h4 : char) :
  escape_here c c1 h1 h2 h3 h4 = true <->
  c = BACKSLASH /\ c1 = LOWER_U
  /\ is_hex h1 = true /\ is_hex h2 = true
  /\ is_hex h3 = true /\ is_hex h4 = true.
Proof.
  unfold escape_here.
  rewrite !andb_true_iff, !N.eqb_eq; tauto.
Qed.

Lemma is_hex_backslash : is_hex BACKSLASH = false.
Proof. reflexivity. Qed.

Lemma is_hex_lower_u : is_hex LOWER_U = false.
Proof. reflexivity. Qed.

Section Sub.
Variable replace : str -> str -> str.

(** One step of the scan at a match. *)
Lemma sub_at_escape (c c1 h1 h2 h3 h4 : char) (after : str) :
  escape_here c c1 h1 h2 h3 h4 = true ->
  sub_unicode_escape replace (c :: c1 :: h1 :: h2 :: h3 :: h4 :: after)
  = replace [c; c1; h1; h2; h3; h4] [h1; h2; h3; h4]
    ++ sub_unicode_escape replace after.
Proof.
  intros H.
  change (sub_unicode_escape replace (c :: c1 :: h1 :: h2 :: h3 :: h4 :: after))
    with (if escape_here c c1 h1 h2 h3 h4
          then replace [c; c1; h1; h2; h3; h4] [h1; h2; h3; h4]
               ++ sub_unicode_escape replace after
          else c :: sub_unicode_escape replace
                      (c1 :: h1 :: h2 :: h3 :: h4 :: after)).
  rewrite H; reflexivity.
Qed.

(** One step of the scan where the pattern does not match. *)
Lemma sub_no_escape (c c1 h1 h2 h3 h4 : char) (after : str) :
  escape_here c c1 h1 h2 h3 h4 = false ->
  sub_unicode_escape replace (c :: c1 :: h1 :: h2 :: h3 :: h4 :: after)
  = c :: sub_unicode_escape replace (c1 :: h1 :: h2 :: h3 :: h4 :: after).
Proof.
  intros H.
  change (sub_unicode_escape replace (c :: c1 :: h1 :: h2 :: h3 :: h4 :: after))
    with (if escape_here c c1 h1 h2 h3 h4
          then replace [c; c1; h1; h2; h3; h4] [h1; h2; h3; h4]
               ++ sub_unicode_escape replace after
          else c :: sub_unicode_escape replace
                      (c1 :: h1 :: h2 :: h3 :: h4 :: after)).
  rewrite H; reflexivity.
Qed.

(** A character other than a backslash is kept. *)
Lemma sub_other (c : char) (rest : str) :
  c <> BACKSLASH ->
  sub_unicode_escape replace (c :: rest)
  = c :: sub_unicode_escape replace rest.
Proof.
  intros Hc.
  destruct rest as [|c1 [|h1 [|h2 [|h3 [|h4 after]]]]]; try reflexivity.
  apply sub_no_escape.
  destruct (escape_here c c1 h1 h2 h3 h4) eqn:E; [|reflexivity].
  apply escape_here_true in E; tauto.
Qed.

(** A backslash that is not followed by [u] is kept. *)
Lemma sub_backslash_other (c1 : char) (rest : str) :
  c1 <> LOWER_U ->
  sub_unicode_escape replace (BACKSLASH :: c1 :: rest)
  = BACKSLASH :: sub_unicode_escape replace (c1 :: rest).
Proof.
  intros Hc.
  destruct rest as [|h1 [|h2 [|h3 [|h4 after]]]]; try reflexivity.
  apply sub_no_escape.
  destruct (escape_here BACKSLASH c1 h1 h2 h3 h4) eqn:E; [|reflexivity].
  apply escape_here_true in E; tauto.
Qed.

(** A character is kept when the text behind it is not the rest of a
    match. *)
Lemma sub_short (c : char) (s : str) :
  (forall c1 h1 h2 h3 h4, escape_here c c1 h1 h2 h3 h4 = true ->
     s = c1 :: h1 :: h2 :: h3 :: h4 :: skipn 5 s -> False) ->
  sub_unicode_escape replace (c :: s) = c :: sub_unicode_escape replace s.
Proof.
  intros Hs.
  destruct s as [|c1 [|h1 [|h2 [|h3 [|h4 after]]]]]; try reflexivity.
  apply sub_no_escape.
  destruct (escape_here c c1 h1 h2 h3 h4) eqn:E; [|reflexivity].
  exfalso; exact (Hs _ _ _ _ _ E eq_refl).
Qed.

(** The scan of a text up to a backslash does not depend on what comes
    behind, and the scan goes on at the backslash: a match never runs
    across a backslash. *)
Lemma sub_app_backslash (pre rest : str) :
  sub_unicode_escape replace (pre ++ BACKSLASH :: rest)
  = sub_unicode_escape replace pre
    ++ sub_unicode_escape replace (BACKSLASH :: rest).
Proof.
  remember (length pre) as n eqn:Hn.
  revert pre Hn; induction n as [n IH] using lt_wf_ind; intros pre Hn.
  destruct pre as [|c pre]; [reflexivity|].
  assert (IH1 : sub_unicode_escape replace (pre ++ BACKSLASH :: rest)
                = sub_unicode_escape replace pre
                  ++ sub_unicode_escape replace (BACKSLASH :: rest)).
  { apply (IH (length pre)); [subst; simpl; lia | reflexivity]. }
  destruct pre as [|c1 [|h1 [|h2 [|h3 [|h4 pre']]]]].
  6: {
    destruct (escape_here c c1 h1 h2 h3 h4) eqn:E.
    - change ((c :: c1 :: h1 :: h2 :: h3 :: h4 :: pre') ++ BACKSLASH :: rest)
        with (c :: c1 :: h1 :: h2 :: h3 :: h4 :: pre' ++ BACKSLASH :: rest).
      rewrite !sub_at_escape by exact E.
      rewrite (IH (length pre')) with (pre := pre');
        [rewrite app_assoc; reflexivity | subst; simpl; lia | reflexivity].
    - change ((c :: c1 :: h1 :: h2 :: h3 :: h4 :: pre') ++ BACKSLASH :: rest)
        with (c :: (c1 :: h1 :: h2 :: h3 :: h4 :: pre') ++ BACKSLASH :: rest).
      change ((c1 :: h1 :: h2 :: h3 :: h4 :: pre') ++ BACKSLASH :: rest)
        with (c1 :: h1 :: h2 :: h3 :: h4 :: pre' ++ BACKSLASH :: rest) at 1.
      rewrite !sub_no_escape by exact E.
      change (c1 :: h1 :: h2 :: h3 :: h4 :: pre' ++ BACKSLASH :: rest)
        with ((c1 :: h1 :: h2 :: h3 :: h4 :: pre') ++ BACKSLASH :: rest).
      rewrite IH1; reflexivity. }
  all: match goal with
       | |- sub_unicode_escape _ ((?c0 :: ?p) ++ ?b :: ?r) = _ =>
           change (sub_unicode_escape replace ((c0 :: p) ++ b :: r))
             with (sub_unicode_escape replace (c0 :: (p ++ b :: r)));
           rewrite (sub_short c0 (p ++ b :: r)), (sub_short c0 p);
           [ rewrite IH1; reflexivity
           | intros a1 a2 a3 a4 a5 _ Hs; simpl in Hs; discriminate Hs
           | intros a1 a2 a3 a4 a5 E Hs; apply escape_here_true in E;
             destruct E as (_ & E1 & E2 & E3 & E4 & E5);
             simpl in Hs; inversion Hs; subst;
             match goal with
             | H : BACKSLASH = LOWER_U |- _ => discriminate H
             | H : is_hex BACKSLASH = true |- _ =>
                 rewrite is_hex_backslash in H; discriminate H
             end ]
       end.
Qed.

End Sub.

End ReFacts.

(** ** The escape decoder *)

Lemma utf8_round_trip_app (a b : str) :
  utf8_round_trip (a ++ b) = utf8_round_trip a ++ utf8_round_trip b.
Proof. apply flat_map_app. Qed.

Lemma utf8_round_trip_nil (s : str) : utf8_round_trip s = [] -> s = [].
Proof.
  destruct s as [|c s]; [reflexivity|]; simpl.
  destruct (is_surrogate c); discriminate.
Qed.

Lemma replace_nonempty (c c1 h1 h2 h3 h4 : char) :
  replace [c; c1; h1; h2; h3; h4] [h1; h2; h3; h4] <> [].
Proof.
  unfold replace; destruct (is_surrogate _); discriminate.
Qed.

Lemma sub_nil (s : str) : Re.sub_unicode_escape replace s = [] -> s = [].
Proof.
  destruct s as [|c [|c1 [|h1 [|h2 [|h3 [|h4 after]]]]]];
    try reflexivity; try discriminate.
  destruct (Re.escape_here c c1 h1 h2 h3 h4) eqn:E.
  - rewrite ReFacts.sub_at_escape by exact E.
    intros H; apply app_eq_nil in H; destruct H as [H _].
    exfalso; exact (replace_nonempty _ _ _ _ _ _ H).
  - rewrite ReFacts.sub_no_escape by exact E; discriminate.
Qed.

(** Only the empty text decodes to the empty text. *)
Lemma decode_empty (content : str) :
  decode_unicode_escapes content = [] <-> content = [].
Proof.
  split; [|intros ->; reflexivity].
  unfold decode_unicode_escapes; intros H.
  apply sub_nil, utf8_round_trip_nil; exact H.
Qed.

Lemma decode_app_backslash (pre rest : str) :
  decode_unicode_escapes (pre ++ BACKSLASH :: rest)
  = decode_unicode_escapes pre ++ decode_unicode_escapes (BACKSLASH :: rest).
Proof.
  unfold decode_unicode_escapes.
  rewrite ReFacts.sub_app_backslash; apply utf8_round_trip_app.
Qed.

(** C6: wherever an escape stands in a text, it decodes on its own.
    Four hexadecimal digits whose code point is no surrogate give the
    character of that code point; a surrogate code point leaves the six
    characters of the escape as they are; and a backslash-u that is not
    followed by four hexadecimal digits stays as text.  In each case the
    text before and the text behind are decoded as they would be
    alone. *)
Theorem decode_resolves_escapes (pre post : str) :
  (forall h1 h2 h3 h4,
      Re.four_hex [h1; h2; h3; h4] = true ->
      is_surrogate (Py.hex4 h1 h2 h3 h4) = false ->
      decode_unicode_escapes
        (pre ++ [BACKSLASH; LOWER_U; h1; h2; h3; h4] ++ post)
      = decode_unicode_escapes pre ++ [Py.hex4 h1 h2 h3 h4]
        ++ decode_unicode_escapes post)
  /\ (forall h1 h2 h3 h4,
      Re.four_hex [h1; h2; h3; h4] = true ->
      is_surrogate (Py.hex4 h1 h2 h3 h4) = true ->
      decode_unicode_escapes
        (pre ++ [BACKSLASH; LOWER_U; h1; h2; h3; h4] ++ post)
      = decode_unicode_escapes pre ++ [BACKSLASH; LOWER_U; h1; h2; h3; h4]
        ++ decode_unicode_escapes post)
  /\ (Re.four_hex post = false ->
      decode_unicode_escapes (pre ++ [BACKSLASH; LOWER_U] ++ post)
      = decode_unicode_escapes pre ++ [BACKSLASH; LOWER_U]
        ++ decode_unicode_escapes post).
Proof.
  assert (Esc : forall h1 h2 h3 h4,
             Re.four_hex [h1; h2; h3; h4] = true ->
             Re.escape_here BACKSLASH LOWER_U h1 h2 h3 h4 = true).
  { intros h1 h2 h3 h4 H; unfold Re.escape_here.
    rewrite !N.eqb_refl; exact H. }
  split; [|split].
  - intros h1 h2 h3 h4 Hhex Hs.
    change (pre ++ [BACKSLASH; LOWER_U; h1; h2; h3; h4] ++ post)
      with (pre ++ BACKSLASH :: LOWER_U :: h1 :: h2 :: h3 :: h4 :: post).
    rewrite decode_app_backslash; f_equal.
    unfold decode_unicode_escapes.
    rewrite ReFacts.sub_at_escape by (apply Esc; exact Hhex).
    rewrite utf8_round_trip_app; f_equal.
    unfold replace; rewrite Hs; simpl; rewrite Hs; reflexivity.
  - intros h1 h2 h3 h4 Hhex Hs.
    change (pre ++ [BACKSLASH; LOWER_U; h1; h2; h3; h4] ++ post)
      with (pre ++ BACKSLASH :: LOWER_U :: h1 :: h2 :: h3 :: h4 :: post).
    rewrite decode_app_backslash; f_equal.
    unfold decode_unicode_escapes.
    rewrite ReFacts.sub_at_escape by (apply Esc; exact Hhex).
    rewrite utf8_round_trip_app.
    f_equal.
    unfold replace; rewrite Hs.
    assert (Hex : forall h, Re.is_hex h = true -> is_surrogate h = false).
    { intros h; unfold Re.is_hex, is_surrogate.
      rewrite !orb_true_iff, !andb_true_iff, !N.leb_le.
      intros H; apply andb_false_iff; left; apply N.leb_gt; lia. }
    simpl in Hhex; rewrite !andb_true_iff in Hhex.
    destruct Hhex as [[[H1 H2] H3] H4].
    simpl.
    rewrite (Hex h1 H1), (Hex h2 H2), (Hex h3 H3), (Hex h4 H4).
    reflexivity.
  - intros Hpost.
    change (pre ++ [BACKSLASH; LOWER_U] ++ post)
      with (pre ++ BACKSLASH :: LOWER_U :: post).
    rewrite decode_app_backslash; f_equal.
    unfold decode_unicode_escapes.
    rewrite ReFacts.sub_short.
    + rewrite ReFacts.sub_other by discriminate.
      reflexivity.
    + intros c1 h1 h2 h3 h4 E Hs.
      apply ReFacts.escape_here_true in E.
      destruct E as (_ & _ & E1 & E2 & E3 & E4).
      inversion Hs as [[Hc Hp]].
      rewrite Hp in Hpost; simpl in Hpost.
      rewrite E1, E2, E3, E4 in Hpost; discriminate.
Qed.

(** The three cases on concrete texts: [\u0041] is the letter A, the
    half of a surrogate pair [\ud83d] stays, and [\u12G4] is no
    escape. *)
Lemma decode_resolves_escapes_witness :
  (Re.four_hex (lit "0041") = true
   /\ is_surrogate (Py.hex4 48 48 52 49) = false
   /\ decode_unicode_escapes (lit "x\u0041y") = lit "xAy")
  /\ (Re.four_hex (lit "d83d") = true
      /\ is_surrogate (Py.hex4 100 56 51 100) = true
      /\ decode_unicode_escapes (lit "x\ud83dy") = lit "x\ud83dy")
  /\ (Re.four_hex (lit "12G4") = false
      /\ decode_unicode_escapes (lit "x\u12G4") = lit "x\u12G4").
Proof.
  destruct (decode_resolves_escapes (lit "x") (lit "y")) as (H1 & H2 & _).
  destruct (decode_resolves_escapes (lit "x") (lit "12G4")) as (_ & _ & H3).
  split; [|split].
  - split; [reflexivity | split; [reflexivity|]].
    exact (H1 48 48 52 49 eq_refl eq_refl).
  - split; [reflexivity | split; [reflexivity|]].
    exact (H2 100 56 51 100 eq_refl eq_refl).
  - split; [reflexivity|].
    exact (H3 eq_refl).
Defined.

(** ** The reader *)

(** C7, amended: for [n >= 1] the reader splits the decoded content at
    the line breaks and joins the last [n] pieces with line breaks
    again, the text behind the last line break being one of the pieces,
    the empty one when the content ends with a line break.  On ten
    lines with nine line breaks between them and none behind the last,
    [n = 3] gives the eighth, ninth and tenth line with the two line
    breaks between them; on ten lines that each end with a line break
    it gives the ninth and the tenth line, each with its line break. *)
Theorem tail_returns_last_lines (fs : filesystem) (p content : str) :
  read_text fs p = Ok content ->
  (forall n : Z, (1 <= n)%Z ->
     read_transcript fs p (Some n)
     = Ok (Py.join [NL]
             (Py.last_n (Z.to_nat n)
                (Py.split NL (decode_unicode_escapes content)))))
  /\ (forall l1 l2 l3 l4 l5 l6 l7 l8 l9 l10 : str,
        Forall (fun l => ~ In NL l) [l1; l2; l3; l4; l5; l6; l7; l8; l9; l10] ->
        decode_unicode_escapes content
        = Py.join [NL] [l1; l2; l3; l4; l5; l6; l7; l8; l9; l10] ->
        read_transcript fs p (Some 3%Z) = Ok (l8 ++ NL :: l9 ++ NL :: l10))
  /\ (forall l1 l2 l3 l4 l5 l6 l7 l8 l9 l10 : str,
        Forall (fun l => ~ In NL l) [l1; l2; l3; l4; l5; l6; l7; l8; l9; l10] ->
        decode_unicode_escapes content
        = Py.join [NL] [l1; l2; l3; l4; l5; l6; l7; l8; l9; l10; []] ->
        read_transcript fs p (Some 3%Z) = Ok (l9 ++ NL :: l10 ++ [NL])).
Proof.
  intros Hread.
  assert (General : forall n : Z, (1 <= n)%Z ->
            read_transcript fs p (Some n)
            = Ok (Py.join [NL]
                    (Py.last_n (Z.to_nat n)
                       (Py.split NL (decode_unicode_escapes content))))).
  { intros n Hn; unfold read_transcript; rewrite Hread.
    destruct (Z.eqb_spec n 0) as [->|_]; [lia|].
    unfold Py.slice_from_neg.
    destruct (Z.ltb_spec 0 n); [reflexivity | lia]. }
  split; [exact General|]; split.
  - intros l1 l2 l3 l4 l5 l6 l7 l8 l9 l10 Hfree Hdec.
    rewrite General by lia.
    rewrite Hdec, PyFacts.split_join;
      [reflexivity | discriminate | exact Hfree].
  - intros l1 l2 l3 l4 l5 l6 l7 l8 l9 l10 Hfree Hdec.
    rewrite General by lia.
    rewrite Hdec, PyFacts.split_join; [reflexivity | discriminate|].
    change [l1; l2; l3; l4; l5; l6; l7; l8; l9; l10; []]
      with ([l1; l2; l3; l4; l5; l6; l7; l8; l9; l10] ++ [[]]).
    apply Forall_app; split; [exact Hfree|].
    constructor; [intros [] | constructor].
Qed.

Lemma tail_returns_last_lines_witness :
  read_text ten_lines (lit "/mnt/transcripts/t.txt")
  = Ok (txt "l1|l2|l3|l4|l5|l6|l7|l8|l9|l10")
  /\ read_transcript ten_lines (lit "/mnt/transcripts/t.txt") (Some 3%Z)
     = Ok (txt "l8|l9|l10").
Proof.
  assert (H : read_text ten_lines (lit "/mnt/transcripts/t.txt")
              = Ok (txt "l1|l2|l3|l4|l5|l6|l7|l8|l9|l10")) by reflexivity.
  split; [exact H|].
  destruct (tail_returns_last_lines ten_lines _ _ H) as (_ & Ten & _).
  apply (Ten (lit "l1") (lit "l2") (lit "l3") (lit "l4") (lit "l5")
             (lit "l6") (lit "l7") (lit "l8") (lit "l9") (lit "l10")).
  - repeat constructor; vm_compute; intuition discriminate.
  - reflexivity.
Defined.

(** C7 as stated fails on a file of ten lines that each end with a line
    break: with [n = 3] the reader returns the ninth and the tenth line
    and their line breaks, two lines and not the last three, with or
    without the line break of the last one. *)
Lemma tail_three_of_ten_ended_lines :
  read_text ten_ended_lines (lit "/mnt/transcripts/t.txt")
  = Ok (txt "l1|l2|l3|l4|l5|l6|l7|l8|l9|l10|")
  /\ read_transcript ten_ended_lines (lit "/mnt/transcripts/t.txt")
       (Some 3%Z) = Ok (txt "l9|l10|")
  /\ read_transcript ten_ended_lines (lit "/mnt/transcripts/t.txt")
       (Some 3%Z) <> Ok (txt "l8|l9|l10|")
  /\ read_transcript ten_ended_lines (lit "/mnt/transcripts/t.txt")
       (Some 3%Z) <> Ok (txt "l8|l9|l10").
Proof.
  split; [reflexivity|]; split; [reflexivity|].
  split; vm_compute; discriminate.
Qed.

Lemma last_one_of_snoc {A} (xs : list A) (x : A) :
  Py.last_n 1 (xs ++ [x]) = [x].
Proof.
  unfold Py.last_n.
  rewrite length_app, Nat.add_sub; simpl length.
  rewrite skipn_app, skipn_all, Nat.sub_diag; reflexivity.
Qed.

(** C10, amended: with [tail = 0] the reader returns the whole decoded
    content, as it does without [tail], and what it then returns is
    empty only for an empty file.  Other values of [tail] give an empty
    result on files that are not empty: [tail = 1] whenever the content
    ends with a line break, and a negative [tail] that drops as many
    lines as the content has, or more. *)
Theorem tail_zero_returns_everything (fs : filesystem) (p content : str) :
  read_text fs p = Ok content ->
  read_transcript fs p (Some 0%Z) = Ok (decode_unicode_escapes content)
  /\ read_transcript fs p (Some 0%Z) = read_transcript fs p None
  /\ (read_transcript fs p (Some 0%Z) = Ok [] <-> content = [])
  /\ (forall body : str,
        decode_unicode_escapes content = body ++ [NL] ->
        read_transcript fs p (Some 1%Z) = Ok [])
  /\ (forall k : nat,
        (length (Py.split NL (decode_unicode_escapes content)) <= k)%nat ->
        read_transcript fs p (Some (- Z.of_nat k)%Z) = Ok []).
Proof.
  intros Hread.
  split; [unfold read_transcript; rewrite Hread; reflexivity|].
  split; [unfold read_transcript; rewrite Hread; reflexivity|].
  split; [|split].
  - unfold read_transcript; rewrite Hread; simpl; split.
    + intros H; apply decode_empty; congruence.
    + intros ->; reflexivity.
  - intros body Hbody.
    unfold read_transcript; rewrite Hread, Hbody.
    change (1 =? 0)%Z with false; cbv iota.
    unfold Py.slice_from_neg; change (0 <? 1)%Z with true; cbv iota.
    change (Z.to_nat 1) with 1%nat.
    rewrite (PyFacts.split_last NL body []) by (intros []).
    rewrite last_one_of_snoc; reflexivity.
  - intros k Hk.
    pose proof (PyFacts.split_nonempty NL (decode_unicode_escapes content))
      as Hne.
    assert (Hpos : (1 <= k)%nat).
    { destruct (Py.split NL (decode_unicode_escapes content));
        [congruence | simpl in Hk; lia]. }
    unfold read_transcript; rewrite Hread.
    destruct (Z.eqb_spec (- Z.of_nat k) 0) as [E|_]; [lia|].
    unfold Py.slice_from_neg.
    destruct (Z.ltb_spec 0 (- Z.of_nat k)) as [E|_]; [lia|].
    unfold Py.from_index.
    rewrite Z.opp_involutive, Nat2Z.id, skipn_all2 by exact Hk.
    reflexivity.
Qed.

Lemma tail_zero_returns_everything_witness :
  read_text ten_lines (lit "/mnt/transcripts/t.txt")
  = Ok (txt "l1|l2|l3|l4|l5|l6|l7|l8|l9|l10")
  /\ read_transcript ten_lines (lit "/mnt/transcripts/t.txt") (Some 0%Z)
     = Ok (txt "l1|l2|l3|l4|l5|l6|l7|l8|l9|l10").
Proof.
  assert (H : read_text ten_lines (lit "/mnt/transcripts/t.txt")
              = Ok (txt "l1|l2|l3|l4|l5|l6|l7|l8|l9|l10")) by reflexivity.
  split; [exact H|].
  exact (proj1 (tail_zero_returns_everything ten_lines _ _ H)).
Defined.

(** The closing clause of C10 fails as stated: the file with the lines
    [a], [b] and [c], each ended by a line break, is not empty, and the
    reader returns the empty text for it with [tail = 1], the last
    piece being the empty one behind the last line break, and with
    [tail = -9], which drops every line. *)
Lemma empty_tail_of_nonempty_file :
  read_text three_ended_lines (lit "/mnt/transcripts/t.txt")
  = Ok (txt "a|b|c|")
  /\ txt "a|b|c|" <> []
  /\ read_transcript three_ended_lines (lit "/mnt/transcripts/t.txt")
       (Some 1%Z) = Ok []
  /\ read_transcript three_ended_lines (lit "/mnt/transcripts/t.txt")
       (Some (-9)%Z) = Ok [].
Proof.
  split; [reflexivity|]; split; [vm_compute; discriminate|].
  split; reflexivity.
Qed.

(** A negative [tail] drops lines from the front instead. *)
Lemma tail_negative_drops_front :
  read_transcript three_ended_lines (lit "/mnt/transcripts/t.txt")
    (Some (-1)%Z) = Ok (txt "b|c|").
Proof. reflexivity. Qed.

(** ** Message extraction *)

(** C2: the example text yields one message, of role [human] and text
    [hi]. *)
Theorem extract_hi_message :
  hi_text
  = NL :: lit "Human:" ++ NL :: lit "Content:" ++ NL :: lit "[" ++ NL
       :: lit "{" ++ 34 :: lit "type" ++ 34 :: lit ":" ++ 34 :: lit "text"
       ++ 34 :: lit "," ++ 34 :: lit "text" ++ 34 :: lit ":" ++ 34
       :: lit "hi" ++ 34 :: lit "}" ++ NL :: lit "]" ++ [NL]
  /\ extract_messages hi_text
     = Ok [{| role := lit "human"; msg_text := lit "hi" |}].
Proof. split; vm_compute; reflexivity. Qed.

(** An item that is no object stops the loop over the items with
    [AttributeError], whatever was collected before. *)
Lemma extract_items_not_object (role : str) (item : Json.value)
  (rest : list Json.value) (messages : list message) :
  (forall members, item <> Json.Object members) ->
  extract_items role (item :: rest) messages = Raise AttributeError.
Proof.
  intros H; destruct item; try reflexivity.
  exfalso; exact (H _ eq_refl).
Qed.

(** C9: a segment whose array parses to a list holding a bare string
    makes [extract_messages] raise [AttributeError], which its handler
    for decoding errors does not catch: on this text no list of messages
    is returned. *)
Theorem extract_raises_on_bare_string :
  Re.split_roles bare_string_text = [[]; lit "Human"; txt "[|'x'|]|"]
  /\ Re.search_array (txt "[|'x'|]|") = Some (txt "[|'x'|]")
  /\ json_loads (txt "[|'x'|]") = Ok (Json.Array [Json.String (lit "x")])
  /\ extract_messages bare_string_text = Raise AttributeError
  /\ forall messages, extract_messages bare_string_text <> Ok messages.
Proof.
  repeat split; try (vm_compute; reflexivity).
  intros messages H; vm_compute in H; discriminate H.
Qed.

(** Both examples come out the same at every depth of recursion that
    leaves a level for the array and, in the first, one for its
    object. *)
Lemma examples_at_any_depth (depth : nat) :
  extract_messages_within (S (S depth)) hi_text
  = Ok [{| role := lit "human"; msg_text := lit "hi" |}]
  /\ extract_messages_within (S depth) bare_string_text
     = Raise AttributeError.
Proof. split; vm_compute; reflexivity. Qed.

Lemma list_pair_ind {A} (P : list A -> Prop) :
  P [] -> (forall x, P [x]) -> (forall x y l, P l -> P (x :: y :: l)) ->
  forall l, P l.
Proof.
  intros H0 H1 H2 l.
  assert (H : P l /\ forall x, P (x :: l)).
  { induction l as [|y l [IHl IHc]]; [split; auto|].
    split; [apply IHc | intros x; apply H2; exact IHl]. }
  exact (proj1 H).
Qed.

(** A segment for whose fragment [json.loads] raises [JSONDecodeError]
    leaves the messages as they were. *)
Lemma extract_from_unparsable (depth : nat)
  (role json_content fragment : str)
  (rest : list str) (messages : list message) :
  Re.search_array json_content = Some fragment ->
  json_loads_within depth fragment = Raise JSONDecodeError ->
  extract_from_within depth (role :: json_content :: rest) messages
  = extract_from_within depth rest messages.
Proof.
  intros Hs Hj; cbn [extract_from_within].
  unfold extract_segment_within; rewrite Hs, Hj.
  destruct (nonempty role && nonempty json_content); reflexivity.
Qed.

Lemma extract_from_skip (depth : nat) (role json_content fragment : str)
  (after : list str) :
  Re.search_array json_content = Some fragment ->
  json_loads_within depth fragment = Raise JSONDecodeError ->
  forall before messages,
    Nat.even (length before) = true ->
    extract_from_within depth (before ++ role :: json_content :: after)
      messages
    = extract_from_within depth (before ++ after) messages.
Proof.
  intros Hs Hj before.
  induction before as [|x|r j before IH] using list_pair_ind;
    intros messages Heven.
  - exact (extract_from_unparsable _ _ _ _ _ _ Hs Hj).
  - discriminate Heven.
  - change (Nat.even (length before) = true) in Heven.
    change ((r :: j :: before) ++ role :: json_content :: after)
      with (r :: j :: (before ++ role :: json_content :: after)).
    change ((r :: j :: before) ++ after) with (r :: j :: (before ++ after)).
    cbn [extract_from_within].
    destruct (nonempty r && nonempty j); [|apply IH; exact Heven].
    destruct (extract_segment_within depth r j messages) as [m|e];
      [apply IH; exact Heven|].
    destruct e; try reflexivity; apply IH; exact Heven.
Qed.

(** C5, amended: when [json.loads] raises [JSONDecodeError] for the
    fragment of a role-marked segment, the result of the extraction is
    the result without that segment: the segment gives no message and no
    error, and the segments before and behind it are treated as they
    would be without it.  This holds whatever recursion depth the
    interpreter has left for [json.loads]. *)
Theorem extract_skips_unparsable (depth : nat)
  (content first role json_content fragment : str)
  (before after : list str) :
  Re.split_roles content
  = first :: before ++ role :: json_content :: after ->
  Nat.even (length before) = true ->
  Re.search_array json_content = Some fragment ->
  json_loads_within depth fragment = Raise JSONDecodeError ->
  extract_messages_within depth content
  = extract_from_within depth (before ++ after) [].
Proof.
  intros Hparts Heven Hs Hj.
  unfold extract_messages_within; rewrite Hparts.
  change (Py.from_index 1 (first :: before ++ role :: json_content :: after))
    with (before ++ role :: json_content :: after).
  exact (extract_from_skip _ _ _ _ _ Hs Hj before [] Heven).
Qed.

(** On the witness the first segment holds [{oops], which is no JSON;
    the message of the second segment is extracted all the same. *)
Lemma extract_skips_unparsable_witness :
  Re.split_roles broken_then_good_text
  = [] :: [] ++ lit "Human" :: txt "[|{oops|]"
       :: [lit "Assistant"; txt "[|{'type':'text','text':'ok'}|]|"]
  /\ Re.search_array (txt "[|{oops|]") = Some (txt "[|{oops|]")
  /\ json_loads (txt "[|{oops|]") = Raise JSONDecodeError
  /\ extract_messages broken_then_good_text
     = Ok [{| role := lit "assistant"; msg_text := lit "ok" |}].
Proof.
  assert (Hp : Re.split_roles broken_then_good_text
               = [] :: [] ++ lit "Human" :: txt "[|{oops|]"
                    :: [lit "Assistant";
                        txt "[|{'type':'text','text':'ok'}|]|"])
    by (vm_compute; reflexivity).
  assert (Hs : Re.search_array (txt "[|{oops|]") = Some (txt "[|{oops|]"))
    by (vm_compute; reflexivity).
  assert (Hj : json_loads (txt "[|{oops|]") = Raise JSONDecodeError)
    by (vm_compute; reflexivity).
  repeat (split; [assumption|]).
  exact (extract_skips_unparsable Json.RECURSION_LIMIT _ _ _ _ _ [] _
           Hp eq_refl Hs Hj).
Defined.

(** C5 as stated fails: a fragment can fail to parse with an exception
    that is no [JSONDecodeError], and then the error is surfaced.  An
    array that holds an integer of 4301 digits makes [json.loads] raise
    [ValueError], and 2000 opening brackets make it raise
    [RecursionError]; [extract_messages] ends with the same exception
    instead of skipping the segment. *)
Lemma extract_surfaces_other_failures :
  (Re.search_array (long_integer_fragment ++ [NL])
   = Some long_integer_fragment
   /\ json_loads long_integer_fragment = Raise ValueError
   /\ extract_messages long_integer_text = Raise ValueError)
  /\ (Re.search_array (deep_nesting_fragment ++ [NL])
      = Some deep_nesting_fragment
      /\ json_loads deep_nesting_fragment = Raise RecursionError
      /\ extract_messages deep_nesting_text = Raise RecursionError).
Proof. repeat split; vm_compute; reflexivity. Qed.

(** Neither failure hangs on the depth of recursion that is taken to be
    left.  Brackets nested deeper than that depth raise
    [RecursionError]: *)
Lemma scan_too_deep (depth : nat) :
  forall (fuel n : nat) (rest : str),
    (depth < n)%nat -> (2 * depth + 1 <= fuel)%nat ->
    Json.scan_once fuel depth (repeat 91 n ++ rest)
    = Json.Failed RecursionError.
Proof.
  induction depth as [|d IH]; intros fuel n rest Hn Hf.
  - destruct fuel as [|f]; [lia|].
    destruct n as [|n]; [lia|].
    reflexivity.
  - destruct fuel as [|[|f]]; [lia | lia|].
    destruct n as [|[|n]]; [lia | lia|].
    cbn [repeat app Json.scan_once].
    change (91 =? 34) with false.
    change (91 =? 123) with false.
    change (91 =? 91) with true.
    cbv iota.
    change (Json.skip_ws (91 :: repeat 91 n ++ rest))
      with (91 :: repeat 91 n ++ rest).
    change (91 =? 93) with false; cbv iota.
    cbn [Json.array_items].
    pose proof (IH f (S n) rest ltac:(lia) ltac:(lia)) as H.
    match goal with
    | |- context [Json.scan_once ?a ?b ?c] =>
        replace (Json.scan_once a b c)
          with (@Json.Failed Json.value RecursionError)
          by (symmetry; exact H)
    end.
    reflexivity.
Qed.

Lemma loads_too_deep (depth n : nat) (rest : str) :
  (depth < n)%nat ->
  json_loads_within depth (repeat 91 n ++ rest) = Raise RecursionError.
Proof.
  intros Hn; unfold json_loads_within, Json.decode.
  destruct n as [|n]; [lia|].
  change (Json.skip_ws (repeat 91 (S n) ++ rest))
    with (repeat 91 (S n) ++ rest).
  rewrite scan_too_deep; [reflexivity | exact Hn|].
  rewrite length_app, repeat_length; lia.
Qed.

(** so the 2000 brackets surface the error at every depth below 2000,
    the default limit of 1000 and whatever the callers leave of it
    among them; *)
Lemma deep_nesting_surfaces (depth : nat) :
  (depth < 2000)%nat ->
  extract_messages_within depth deep_nesting_text = Raise RecursionError.
Proof.
  intros Hd; unfold extract_messages_within.
  assert (Hp : Re.split_roles deep_nesting_text
               = [[]; lit "Human"; deep_nesting_fragment ++ [NL]])
    by (vm_compute; reflexivity).
  assert (Hs : Re.search_array (deep_nesting_fragment ++ [NL])
               = Some deep_nesting_fragment)
    by (vm_compute; reflexivity).
  rewrite Hp.
  change (Py.from_index 1 [[]; lit "Human"; deep_nesting_fragment ++ [NL]])
    with [lit "Human"; deep_nesting_fragment ++ [NL]].
  cbn [extract_from_within].
  change (nonempty (lit "Human") && nonempty (deep_nesting_fragment ++ [NL]))
    with true; cbv iota.
  unfold extract_segment_within; rewrite Hs.
  unfold deep_nesting_fragment at 1.
  rewrite (loads_too_deep depth 2000 _ Hd); reflexivity.
Qed.

(** and the long integer, which sits in one array, surfaces its error
    as soon as a single level is left. *)
Lemma long_integer_surfaces (depth : nat) :
  json_loads_within (S depth) long_integer_fragment = Raise ValueError
  /\ extract_messages_within (S depth) long_integer_text = Raise ValueError.
Proof. split; vm_compute; reflexivity. Qed.

(** ** A named file that does not exist *)

(** C3, amended: when [--file] names a path that does not exist, and
    none of [--list], [--search], [--all] is given, the script prints
    [Error: <name> not found] on standard output, prints nothing on the
    error stream, writes no file and exits with status 1. *)
Theorem missing_file_exits_1 (fs : filesystem) (a : args) (file : str) :
  arg_list a = false ->
  given_str (arg_search a) = None ->
  arg_all a = false ->
  given_str (arg_file a) = Some file ->
  path_exists fs (in_transcripts_dir file) = false ->
  run fs a
  = (Raise (SystemExit 1),
     {| stdout := lit "Error: " ++ file ++ lit " not found" ++ [NL];
        stderr := [];
        written := [] |})
  /\ Py.contains file (stdout (snd (run fs a))) = true.
Proof.
  intros Hl Hs Ha Hf He.
  assert (Hrun : run fs a
                 = (Raise (SystemExit 1),
                    {| stdout := lit "Error: " ++ file ++ lit " not found"
                                 ++ [NL];
                       stderr := [];
                       written := [] |})).
  { unfold run, main, main_with; rewrite Hl, Hs, Ha, Hf, He; simpl.
    unfold bind, print, sys_exit, raise; simpl.
    rewrite <- app_assoc; reflexivity. }
  split; [exact Hrun|].
  rewrite Hrun; simpl stdout.
  apply (PyFacts.contains_app (lit "Error: ")).
Qed.

Lemma missing_file_exits_1_witness :
  path_exists (directory []) (in_transcripts_dir (lit "missing.txt")) = false
  /\ run (directory []) missing_file_args
     = (Raise (SystemExit 1),
        {| stdout := lit "Error: missing.txt not found" ++ [NL];
           stderr := [];
           written := [] |}).
Proof.
  split; [reflexivity|].
  exact (proj1 (missing_file_exits_1 (directory []) missing_file_args
                  (lit "missing.txt") eq_refl eq_refl eq_refl eq_refl
                  eq_refl)).
Defined.

(** C3 as stated fails twice.  With [--file missing.txt] alone the
    script exits with status 1, but the message is on standard output
    and the error stream stays empty; with [--list] given as well the
    script lists the directory and ends normally. *)
Lemma missing_file_message_on_stdout :
  (fst (run (directory []) missing_file_args) = Raise (SystemExit 1)
   /\ stderr (snd (run (directory []) missing_file_args)) = []
   /\ Py.contains (lit "missing.txt")
        (stderr (snd (run (directory []) missing_file_args))) = false
   /\ Py.contains (lit "missing.txt")
        (stdout (snd (run (directory []) missing_file_args))) = true)
  /\ run (directory []) list_and_missing_file_args
     = (Ok tt,
        {| stdout := lit "Found 0 transcripts:" ++ [NL; NL];
           stderr := [];
           written := [] |}).
Proof. repeat split; vm_compute; reflexivity. Qed.

(** ** Search *)

(** C4 fails on a query that holds a line break: the content of
    [a.txt], the two lines [x] and [y], contains the query, no single
    line does, and the file is reported with an empty list of
    matches. *)
Theorem search_reports_file_without_matches :
  Py.contains (Py.lower two_line_query) (Py.lower (txt "x|y")) = true
  /\ Forall (fun l => Py.contains (Py.lower two_line_query) (Py.lower l)
                      = false)
       (Py.split NL (txt "x|y"))
  /\ search_transcripts two_line_file two_line_query
     = Ok [{| file := lit "a.txt"; matches := [] |}].
Proof.
  split; [reflexivity|].
  split; [repeat constructor | reflexivity].
Qed.

(** ** The decoder never runs out of fuel *)

Module JsonFacts.
Import Json.

Lemma skip_ws_length (s : str) : (length (skip_ws s) <= length s)%nat.
Proof.
  induction s as [|c s IH]; simpl; [lia|].
  destruct (is_ws c); simpl; lia.
Qed.

Lemma expect_length (c : char) (s rest : str) :
  expect c s = Some rest -> length s = S (length rest).
Proof.
  destruct s as [|c' s]; simpl; [discriminate|].
  destruct (c' =? c); [|discriminate].
  intros H; inversion H; reflexivity.
Qed.

Lemma push_some (c : char) (r : option (str * str)) (k rest : str) :
  push c r = Some (k, rest) -> exists k', r = Some (k', rest).
Proof.
  destruct r as [[k' rest']|]; simpl; [|discriminate].
  intros H; inversion H; subst; eexists; reflexivity.
Qed.

(** A scanned string ends behind its closing quote. *)
Lemma scanstring_length (s k rest : str) :
  scanstring s = Some (k, rest) -> (length rest < length s)%nat.
Proof.
  remember (length s) as n eqn:Hn.
  revert s k rest Hn; induction n as [n IH] using lt_wf_ind.
  intros s k rest Hn H.
  assert (Step : forall s' c k0,
             (length s' < n)%nat -> push c (scanstring s') = Some (k0, rest) ->
             (length rest < n)%nat).
  { intros s' c k0 Hlt Hp.
    apply push_some in Hp; destruct Hp as [k' Hp].
    specialize (IH (length s') Hlt s' k' rest eq_refl Hp); lia. }
  destruct s as [|c s1]; [discriminate|].
  cbn [scanstring] in H.
  destruct (c =? 34).
  { inversion H; subst; simpl; lia. }
  destruct (c =? 92).
  2: { destruct (c <? 32); [discriminate|].
       eapply Step; [|exact H]; rewrite Hn; simpl; lia. }
  destruct s1 as [|e s2]; [discriminate|].
  destruct (e =? 117).
  2: { destruct (simple_escape e); [|discriminate].
       eapply Step; [|exact H]; rewrite Hn; simpl; lia. }
  destruct s2 as [|h1 [|h2 [|h3 [|h4 s3]]]]; try discriminate.
  destruct (Re.is_hex h1 && Re.is_hex h2 && Re.is_hex h3 && Re.is_hex h4);
    [|discriminate].
  destruct ((55296 <=? Py.hex4 h1 h2 h3 h4) && (Py.hex4 h1 h2 h3 h4 <=? 56319)).
  2: { eapply Step; [|exact H]; rewrite Hn; simpl; lia. }
  destruct s3 as [|b [|u [|g1 [|g2 [|g3 [|g4 s4]]]]]];
    try (eapply Step; [|exact H]; rewrite Hn; simpl; lia).
  destruct ((b =? 92) && (u =? 117)).
  2: { eapply Step; [|exact H]; rewrite Hn; simpl; lia. }
  destruct (Re.is_hex g1 && Re.is_hex g2 && Re.is_hex g3 && Re.is_hex g4);
    [|discriminate].
  destruct ((56320 <=? Py.hex4 g1 g2 g3 g4) && (Py.hex4 g1 g2 g3 g4 <=? 57343));
    (eapply Step; [|exact H]; rewrite Hn; simpl; lia).
Qed.

Lemma span_digits_length (s d r : str) :
  span_digits s = (d, r) -> (length r <= length s)%nat.
Proof.
  revert d r; induction s as [|c s IH]; simpl; intros d r H.
  - inversion H; simpl; lia.
  - destruct (is_digit c).
    + destruct (span_digits s) as [d' r'] eqn:E.
      inversion H; subst. specialize (IH _ _ eq_refl); lia.
    + inversion H; subst; simpl; lia.
Qed.

Lemma scan_sign_length (s : str) :
  (length (snd (scan_sign s)) <= length s)%nat.
Proof.
  destruct s as [|c s]; simpl; [lia|].
  destruct (c =? 45); simpl; lia.
Qed.

Lemma scan_int_length (s d r : str) :
  scan_int s = Some (d, r) -> (length r < length s)%nat.
Proof.
  destruct s as [|c s]; simpl; [discriminate|].
  destruct (c =? 48); [intros H; inversion H; subst; lia|].
  destruct (is_digit c); [|discriminate].
  destruct (span_digits s) as [d' r'] eqn:E.
  intros H; inversion H; subst.
  apply span_digits_length in E; lia.
Qed.

Lemma scan_frac_length (s : str) :
  (length (snd (scan_frac s)) <= length s)%nat.
Proof.
  destruct s as [|c s]; simpl; [lia|].
  destruct (c =? 46); [|simpl; lia].
  destruct (span_digits s) as [d r] eqn:E.
  apply span_digits_length in E.
  destruct d; simpl; lia.
Qed.

Lemma scan_exp_length (s : str) :
  (length (snd (scan_exp s)) <= length s)%nat.
Proof.
  destruct s as [|c s]; simpl; [lia|].
  destruct ((c =? 101) || (c =? 69)); [|simpl; lia].
  destruct s as [|c' t]; simpl; [lia|].
  destruct (c' =? 45); [|destruct (c' =? 43)].
  - destruct (span_digits t) as [d r] eqn:E.
    apply span_digits_length in E. destruct d; simpl; lia.
  - destruct (span_digits t) as [d r] eqn:E.
    apply span_digits_length in E. destruct d; simpl; lia.
  - destruct (span_digits (c' :: t)) as [d r] eqn:E.
    apply span_digits_length in E. simpl in E. destruct d; simpl; lia.
Qed.

Lemma scan_number_length (s : str) (v : value) (rest : str) :
  scan_number s = Scanned v rest -> (length rest < length s)%nat.
Proof.
  unfold scan_number.
  pose proof (scan_sign_length s) as Hs.
  destruct (scan_sign s) as [neg s1]; simpl in Hs.
  destruct (scan_int s1) as [[idigits r]|] eqn:Ei; [|discriminate].
  apply scan_int_length in Ei.
  pose proof (scan_frac_length r) as Hf.
  destruct (scan_frac r) as [fdigits r1]; simpl in Hf.
  pose proof (scan_exp_length r1) as He.
  destruct (scan_exp r1) as [[edigits eneg] r2]; simpl in He.
  destruct fdigits, edigits;
    try destruct (MAX_STR_DIGITS <? length idigits)%nat;
    intros H; inversion H; subst; lia.
Qed.

Lemma scan_number_fuel (s : str) : scan_number s <> Exhausted.
Proof.
  unfold scan_number.
  destruct (scan_sign s) as [neg s1].
  destruct (scan_int s1) as [[idigits r]|]; [|discriminate].
  destruct (scan_frac r) as [fdigits r1].
  destruct (scan_exp r1) as [[edigits eneg] r2].
  destruct fdigits, edigits;
    try destruct (MAX_STR_DIGITS <? length idigits)%nat; discriminate.
Qed.

Lemma startswith_length (p s : str) :
  Py.startswith p s = true -> (length p <= length s)%nat.
Proof.
  revert s; induction p as [|x p IH]; intros [|y s]; simpl;
    try lia; try discriminate.
  rewrite andb_true_iff; intros [_ H]; apply IH in H; lia.
Qed.

Lemma constant_length (name : str) (v v' : value) (s rest : str) :
  name <> [] -> constant name v s = Some (v', rest) ->
  (length rest < length s)%nat.
Proof.
  unfold constant; intros Hne.
  destruct (Py.startswith name s) eqn:E; [|discriminate].
  apply startswith_length in E.
  intros H; inversion H; subst.
  rewrite length_skipn.
  destruct name; [congruence | simpl in *; lia].
Qed.

Lemma scan_constant_length (s : str) (v : value) (rest : str) :
  scan_constant s = Some (v, rest) -> (length rest < length s)%nat.
Proof.
  unfold scan_constant; destruct s as [|c s]; [discriminate|].
  repeat (destruct (c =? _);
          [intros H; eapply constant_length; [|exact H]; discriminate|]).
  discriminate.
Qed.

(** Whatever is scanned, something of the text is used up. *)
Lemma scan_lengths (fuel : nat) :
  (forall depth s v r, scan_once fuel depth s = Scanned v r ->
                       (length r < length s)%nat)
  /\ (forall depth s seen v r,
        array_items fuel depth s seen = Scanned v r ->
        (length r < length s)%nat)
  /\ (forall depth s seen v r,
        object_members fuel depth s seen = Scanned v r ->
        (length r < length s)%nat).
Proof.
  induction fuel as [|f (IH1 & IH2 & IH3)];
    [repeat split; intros; discriminate|].
  split; [|split].
  - intros depth s v r H; cbn [scan_once] in H.
    destruct s as [|c s']; [discriminate|].
    destruct (c =? 34).
    { destruct (scanstring s') as [[k rest]|] eqn:E; [|discriminate].
      inversion H; subst; apply scanstring_length in E; simpl; lia. }
    destruct (c =? 123).
    { destruct depth as [|depth']; [discriminate|].
      pose proof (skip_ws_length s') as Hw.
      destruct (skip_ws s') as [|c' rest]; [discriminate|].
      destruct (c' =? 125); [inversion H; subst; simpl in *; lia|].
      apply IH3 in H; simpl in *; lia. }
    destruct (c =? 91).
    { destruct depth as [|depth']; [discriminate|].
      pose proof (skip_ws_length s') as Hw.
      destruct (skip_ws s') as [|c' rest]; [discriminate|].
      destruct (c' =? 93); [inversion H; subst; simpl in *; lia|].
      apply IH2 in H; simpl in *; lia. }
    destruct (scan_constant (c :: s')) as [[v' rest]|] eqn:E.
    { inversion H; subst; apply scan_constant_length in E; exact E. }
    exact (scan_number_length _ _ _ H).
  - intros depth s seen v r H; cbn [array_items] in H.
    destruct (scan_once f depth s) as [v' rest| | |] eqn:E;
      try discriminate.
    apply IH1 in E.
    pose proof (skip_ws_length rest) as Hw.
    destruct (skip_ws rest) as [|c rest']; [discriminate|].
    destruct (c =? 93); [inversion H; subst; simpl in *; lia|].
    destruct (c =? 44); [|discriminate].
    apply IH2 in H.
    pose proof (skip_ws_length rest'); simpl in *; lia.
  - intros depth s seen v r H; cbn [object_members] in H.
    destruct (expect 34 s) as [s'|] eqn:E0; [|discriminate].
    apply expect_length in E0.
    destruct (scanstring s') as [[key rest]|] eqn:E1; [|discriminate].
    apply scanstring_length in E1.
    pose proof (skip_ws_length rest) as Hw.
    destruct (expect 58 (skip_ws rest)) as [rest'|] eqn:E2; [|discriminate].
    apply expect_length in E2.
    pose proof (skip_ws_length rest') as Hw'.
    destruct (scan_once f depth (skip_ws rest')) as [v' rest''| | |] eqn:E3;
      try discriminate.
    apply IH1 in E3.
    pose proof (skip_ws_length rest'') as Hw''.
    destruct (skip_ws rest'') as [|c rest3]; [discriminate|].
    destruct (c =? 125); [inversion H; subst; simpl in *; lia|].
    destruct (c =? 44); [|discriminate].
    apply IH3 in H.
    pose proof (skip_ws_length rest3); simpl in *; lia.
Qed.

(** Twice the length of the text, and one or two more, is fuel enough. *)
Lemma scan_fuel (fuel : nat) :
  (forall depth s, (2 * length s + 1 <= fuel)%nat ->
                   scan_once fuel depth s <> Exhausted)
  /\ (forall depth s seen, (2 * length s + 2 <= fuel)%nat ->
                           array_items fuel depth s seen <> Exhausted)
  /\ (forall depth s seen, (2 * length s + 2 <= fuel)%nat ->
                           object_members fuel depth s seen <> Exhausted).
Proof.
  induction fuel as [|f (IH1 & IH2 & IH3)];
    [repeat split; intros; lia|].
  destruct (scan_lengths f) as (L1 & _ & _).
  split; [|split].
  - intros depth s Hf; cbn [scan_once].
    destruct s as [|c s']; [discriminate|].
    destruct (c =? 34).
    { destruct (scanstring s') as [[k rest]|]; discriminate. }
    destruct (c =? 123).
    { destruct depth as [|depth']; [discriminate|].
      pose proof (skip_ws_length s') as Hw.
      destruct (skip_ws s') as [|c' rest]; [discriminate|].
      destruct (c' =? 125); [discriminate|].
      apply IH3; simpl in *; lia. }
    destruct (c =? 91).
    { destruct depth as [|depth']; [discriminate|].
      pose proof (skip_ws_length s') as Hw.
      destruct (skip_ws s') as [|c' rest]; [discriminate|].
      destruct (c' =? 93); [discriminate|].
      apply IH2; simpl in *; lia. }
    destruct (scan_constant (c :: s')) as [[v' rest]|]; [discriminate|].
    apply scan_number_fuel.
  - intros depth s seen Hf; cbn [array_items].
    pose proof (IH1 depth s) as Hs.
    destruct (scan_once f depth s) as [v' rest| | |] eqn:E;
      [|discriminate | discriminate
       | exfalso; apply Hs; [lia | reflexivity]].
    apply L1 in E.
    pose proof (skip_ws_length rest) as Hw.
    destruct (skip_ws rest) as [|c rest']; [discriminate|].
    destruct (c =? 93); [discriminate|].
    destruct (c =? 44); [|discriminate].
    pose proof (skip_ws_length rest').
    apply IH2; simpl in *; lia.
  - intros depth s seen Hf; cbn [object_members].
    destruct (expect 34 s) as [s'|] eqn:E0; [|discriminate].
    apply expect_length in E0.
    destruct (scanstring s') as [[key rest]|] eqn:E1; [|discriminate].
    apply scanstring_length in E1.
    pose proof (skip_ws_length rest) as Hw.
    destruct (expect 58 (skip_ws rest)) as [rest'|] eqn:E2; [|discriminate].
    apply expect_length in E2.
    pose proof (skip_ws_length rest') as Hw'.
    pose proof (IH1 depth (skip_ws rest')) as Hs.
    destruct (scan_once f depth (skip_ws rest')) as [v' rest''| | |] eqn:E3;
      [|discriminate | discriminate
       | exfalso; apply Hs; [lia | reflexivity]].
    apply L1 in E3.
    pose proof (skip_ws_length rest'') as Hw''.
    destruct (skip_ws rest'') as [|c rest3]; [discriminate|].
    destruct (c =? 125); [discriminate|].
    destruct (c =? 44); [|discriminate].
    pose proof (skip_ws_length rest3).
    apply IH3; simpl in *; lia.
Qed.

Lemma array_items_array (fuel depth : nat) (s : str) (seen : list value)
  (v : value) (r : str) :
  array_items fuel depth s seen = Scanned v r ->
  exists items, v = Array items.
Proof.
  revert s seen; induction fuel as [|f IH]; intros s seen H; [discriminate|].
  cbn [array_items] in H.
  destruct (scan_once f depth s) as [v' rest| | |]; try discriminate.
  destruct (skip_ws rest) as [|c rest']; [discriminate|].
  destruct (c =? 93); [inversion H; subst; eexists; reflexivity|].
  destruct (c =? 44); [|discriminate].
  exact (IH _ _ H).
Qed.

(** A text that starts with a bracket decodes to a list, if at all. *)
Lemma decode_bracket (depth : nat) (s : str) (v : value) (r : str) :
  decode depth (91 :: s) = Scanned v r -> exists items, v = Array items.
Proof.
  unfold decode.
  change (skip_ws (91 :: s)) with (91 :: s).
  destruct (scan_once _ _ _) as [v' rest| | |] eqn:E; try discriminate.
  destruct (skip_ws rest); [|simpl; discriminate].
  intros H; inversion H; subst.
  rewrite Nat.add_1_r in E; cbn [scan_once] in E.
  change (91 =? 34) with false in E.
  change (91 =? 123) with false in E.
  change (91 =? 91) with true in E.
  cbv iota in E.
  destruct depth as [|depth']; [discriminate|].
  destruct (skip_ws s) as [|c' rest']; [discriminate|].
  destruct (c' =? 93); [inversion E; subst; eexists; reflexivity|].
  exact (array_items_array _ _ _ _ _ _ E).
Qed.

(** [decode] gives a value or an exception, never [Exhausted]. *)
Lemma decode_fuel (depth : nat) (s : str) : decode depth s <> Exhausted.
Proof.
  unfold decode.
  pose proof (skip_ws_length s) as Hw.
  destruct (scan_fuel (2 * length s + 1)) as (F & _ & _).
  specialize (F depth (skip_ws s)).
  destruct (scan_once (2 * length s + 1) depth (skip_ws s))
    as [v rest| | |];
    [destruct (skip_ws rest); discriminate | discriminate | discriminate|].
  exfalso; apply F; [lia | reflexivity].
Qed.

End JsonFacts.

(** [json.loads] returns a value or raises; what it raises comes from
    the decoder, never from the fuel of the model. *)
Lemma json_loads_total (depth : nat) (s : str) :
  (exists v, json_loads_within depth s = Ok v)
  \/ (exists e, Json.decode depth s = Json.Failed e
                /\ json_loads_within depth s = Raise e)
  \/ (Json.decode depth s = Json.Invalid
      /\ json_loads_within depth s = Raise JSONDecodeError).
Proof.
  unfold json_loads_within; pose proof (JsonFacts.decode_fuel depth s) as H.
  destruct (Json.decode depth s) as [v r| |e|].
  - left; eexists; reflexivity.
  - right; right; split; reflexivity.
  - right; left; exists e; split; reflexivity.
  - congruence.
Qed.

(** What [re.search] finds starts with a bracket. *)
Lemma search_array_bracket (s fragment : str) :
  Re.search_array s = Some fragment -> exists f, fragment = 91 :: f.
Proof.
  induction s as [|c s IH]; simpl; [discriminate|].
  destruct (N.eqb_spec c 91) as [->|_]; [|exact IH].
  destruct (Re.lazy_to_close s) as [m|]; [|exact IH].
  intros H; inversion H; eexists; reflexivity.
Qed.

(** In [extract_messages] the data given to the loop over the items is
    always a list. *)
Lemma extract_segment_data (depth : nat) (json_content fragment : str)
  (data : Json.value) :
  Re.search_array json_content = Some fragment ->
  json_loads_within depth fragment = Ok data ->
  exists items, data = Json.Array items.
Proof.
  intros Hs Hj.
  destruct (search_array_bracket _ _ Hs) as [f ->].
  unfold json_loads_within in Hj.
  destruct (Json.decode depth (91 :: f)) as [v r| | |] eqn:E;
    try discriminate.
  inversion Hj; subst.
  exact (JsonFacts.decode_bracket _ _ _ _ E).
Qed.

(** ** Search without a line break in the query *)

Lemma matching_lines_found (lower : str -> str) (q : str) (i : N)
  (lines : list str) (l : str) :
  In l lines -> Py.contains q (lower l) = true ->
  matching_lines lower q i lines <> [].
Proof.
  revert i; induction lines as [|l' lines IH]; intros i Hin Hc; [destruct Hin|].
  cbn [matching_lines].
  destruct (Py.contains q (lower l')) eqn:E; [discriminate|].
  destruct Hin as [->|Hin]; [congruence | exact (IH _ Hin Hc)].
Qed.

(** A lowering that works line by line keeps a text without line break
    free of line breaks. *)
Lemma line_wise_no_NL (lower : str -> str) (s : str) :
  line_wise lower -> ~ In NL s -> ~ In NL (lower s).
Proof.
  intros Hl Hs.
  apply (PyFacts.split_single NL (lower s) (lower s)).
  rewrite Hl, (PyFacts.split_no_sep NL s Hs); reflexivity.
Qed.

Lemma search_in_lines (lower : str -> str) (fs : filesystem) (q : str)
  (transcripts : list transcript) (results : list search_result) :
  line_wise lower ->
  ~ In NL q ->
  search_in lower fs q transcripts = Ok results ->
  Forall (fun r =>
            matches r <> []
            /\ exists t content l,
                 In t transcripts /\ file r = name t
                 /\ read_transcript fs (path t) None = Ok content
                 /\ In l (Py.split NL content)
                 /\ Py.contains q (lower l) = true) results.
Proof.
  intros Hlw Hq; revert results.
  induction transcripts as [|t ts IH]; intros results H.
  - inversion H; constructor.
  - cbn [search_in] in H.
    destruct (read_transcript fs (path t) None) as [content|] eqn:Er;
      [|discriminate].
    destruct (search_in lower fs q ts) as [rs|]; [|discriminate].
    inversion H; subst; clear H.
    apply Forall_app; split.
    + destruct (Py.contains q (lower content)) eqn:Ec; [|constructor].
      destruct (PyFacts.contains_some_line q (lower content) Hq Ec)
        as (ll & Hll & Hcl).
      rewrite Hlw in Hll; apply in_map_iff in Hll.
      destruct Hll as (l & <- & Hl).
      constructor; [|constructor]; cbn [matches file]; split.
      * pose proof (matching_lines_found lower q 0 _ l Hl Hcl) as Hne.
        destruct (matching_lines lower q 0 (Py.split NL content));
          [congruence | discriminate].
      * exists t, content, l; repeat split; auto; left; reflexivity.
    + eapply Forall_impl; [|exact (IH _ eq_refl)].
      intros r (Hm & t' & c' & l' & Hin & Hrest).
      split; [exact Hm|].
      exists t', c', l'; split; [right; exact Hin | exact Hrest].
Qed.

(** X11: for a query without a line break every reported file has a
    line that holds the lowered query once lowered itself, and its list
    of matches is not empty.  This holds for every lowering that works
    line by line, as [str.lower] does: no character is lowered to or
    from a line break, and none is lowered with regard to what stands
    beyond a line break. *)
Lemma search_without_line_break (lower : str -> str) (fs : filesystem)
  (query : str) (results : list search_result) :
  line_wise lower ->
  ~ In NL query ->
  search_transcripts_with lower fs query = Ok results ->
  Forall (fun r =>
            matches r <> []
            /\ exists t content l,
                 In t (get_transcript_list fs) /\ file r = name t
                 /\ read_transcript fs (path t) None = Ok content
                 /\ In l (Py.split NL content)
                 /\ Py.contains (lower query) (lower l) = true)
    results.
Proof.
  intros Hlw Hq H; unfold search_transcripts_with in H.
  exact (search_in_lines lower fs _ _ _ Hlw
           (line_wise_no_NL lower _ Hlw Hq) H).
Qed.

(** * Further properties of the script *)

(** ** The escape decoder *)

Lemma utf8_round_trip_clean (s : str) :
  Forall (fun c => is_surrogate c = false) (utf8_round_trip s).
Proof.
  induction s as [|c s IH]; simpl; [constructor|].
  destruct (is_surrogate c) eqn:E.
  - repeat (constructor; [reflexivity|]); exact IH.
  - constructor; assumption.
Qed.

(** X1: whatever the text, the decoded text holds no surrogate code
    point, so it can always be written out as UTF-8. *)
Theorem decode_never_returns_surrogate (content : str) :
  Forall (fun c => is_surrogate c = false) (decode_unicode_escapes content).
Proof. apply utf8_round_trip_clean. Qed.

Lemma sub_without_backslash (s : str) :
  ~ In BACKSLASH s -> Re.sub_unicode_escape replace s = s.
Proof.
  induction s as [|c s IH]; intros H; [reflexivity|].
  rewrite ReFacts.sub_other.
  - rewrite IH; [reflexivity | intros Hin; apply H; right; exact Hin].
  - intros ->; apply H; left; reflexivity.
Qed.

Lemma utf8_round_trip_id (s : str) :
  Forall (fun c => is_surrogate c = false) s -> utf8_round_trip s = s.
Proof.
  induction 1 as [|c s Hc _ IH]; simpl; [reflexivity|].
  rewrite Hc, IH; reflexivity.
Qed.

(** X2: a text without backslash and without surrogate code point is
    decoded to itself. *)
Theorem decode_plain_text_unchanged (content : str) :
  ~ In BACKSLASH content ->
  Forall (fun c => is_surrogate c = false) content ->
  decode_unicode_escapes content = content.
Proof.
  intros Hb Hs; unfold decode_unicode_escapes.
  rewrite sub_without_backslash by exact Hb.
  apply utf8_round_trip_id; exact Hs.
Qed.

Lemma decode_plain_text_unchanged_witness :
  decode_unicode_escapes (txt "plain|text") = txt "plain|text".
Proof.
  apply decode_plain_text_unchanged.
  - vm_compute; intuition discriminate.
  - repeat constructor.
Defined.

(** ** The listing *)

Lemma collect_transcripts_in (files : list dir_entry) (t : transcript) :
  In t (collect_transcripts files) <->
  exists f, In f files
            /\ Py.str_eqb (d_name f) (lit "journal.txt") = false
            /\ t = {| name := d_name f;
                      size := st_size (d_stat f);
                      modified := st_mtime (d_stat f);
                      path := TRANSCRIPTS_DIR ++ 47 :: d_name f |}.
Proof.
  induction files as [|f files IH]; simpl.
  - split; [intros [] | intros (f & [] & _)].
  - destruct (Py.str_eqb (d_name f) (lit "journal.txt")) eqn:E.
    + rewrite IH; split.
      * intros (g & Hg & Hrest); exists g; split; [right; exact Hg | exact Hrest].
      * intros (g & [<-|Hg] & Hj & Ht); [congruence|].
        exists g; auto.
    + simpl; rewrite IH; split.
      * intros [<-|(g & Hg & Hrest)].
        -- exists f; auto.
        -- exists g; split; [right; exact Hg | exact Hrest].
      * intros (g & [<-|Hg] & Hj & Ht); [left; symmetry; exact Ht|].
        right; exists g; auto.
Qed.

Lemma collect_transcripts_sorted (files : list dir_entry) :
  StronglySorted (Py.key_le d_name) files ->
  StronglySorted (Py.key_le name) (collect_transcripts files).
Proof.
  induction 1 as [|f files Hs IH Hf]; simpl; [constructor|].
  destruct (Py.str_eqb (d_name f) (lit "journal.txt")); [exact IH|].
  constructor; [exact IH|].
  apply Forall_forall; intros t Ht.
  apply collect_transcripts_in in Ht.
  destruct Ht as (g & Hg & _ & ->).
  rewrite Forall_forall in Hf; exact (Hf g Hg).
Qed.

Lemma listing_sorted (fs : filesystem) :
  StronglySorted (Py.key_le name) (get_transcript_list fs).
Proof. apply collect_transcripts_sorted, PyFacts.sorted_sorted. Qed.

Lemma listing_paths (fs : filesystem) (t : transcript) :
  In t (get_transcript_list fs) -> path t = TRANSCRIPTS_DIR ++ 47 :: name t.
Proof.
  intros H; apply collect_transcripts_in in H.
  destruct H as (f & _ & _ & ->); reflexivity.
Qed.


Lemma current_is_last (fs : filesystem) :
  get_current_transcript fs
  = match rev (get_transcript_list fs) with
    | [] => None
    | t :: _ => Some (path t)
    end.
Proof.
  pose proof (listing_sorted fs) as Hs.
  pose proof (listing_paths fs) as Hp.
  unfold get_current_transcript.
  destruct (get_transcript_list fs) as [|t0 l0] eqn:El; [reflexivity|].
  rewrite <- El in *.
  destruct (Py.sorted_reverse name (get_transcript_list fs))
    as [|first rest] eqn:E.
  { exfalso; revert E; apply PyFacts.sorted_reverse_nonempty.
    rewrite El; discriminate. }
  destruct (PyFacts.sorted_reverse_head name _ _ _ E) as [Hin Hmax].
  destruct (rev (get_transcript_list fs)) as [|t back] eqn:Er.
  { apply (f_equal (@rev _)) in Er; rewrite rev_involutive in Er.
    rewrite El in Er; discriminate. }
  assert (Hl : get_transcript_list fs = rev back ++ [t]).
  { rewrite <- (rev_involutive (get_transcript_list fs)), Er; reflexivity. }
  assert (Ht : In t (get_transcript_list fs)).
  { rewrite Hl; apply in_or_app; right; left; reflexivity. }
  assert (Hlast : forall x, In x (get_transcript_list fs) ->
                            Py.key_le name x t).
  { intros x Hx; apply (PyFacts.sorted_last_greatest name (rev back));
      rewrite <- Hl; assumption. }
  rewrite (Hp _ Hin), (Hp _ Ht).
  do 2 f_equal.
  apply PyFacts.str_leb_antisym; [apply Hlast | apply Hmax]; assumption.
Qed.

(** X4: the current transcript is the last entry of the listing, and
    there is none exactly when the listing is empty. *)
Theorem current_transcript_is_last_listed (fs : filesystem) :
  get_current_transcript fs
  = match rev (get_transcript_list fs) with
    | [] => None
    | t :: _ => Some (path t)
    end.
Proof. exact (current_is_last fs). Qed.

(** ** The reader *)

(** X5: for [tail >= 1] what the reader returns is an end of the decoded
    content: nothing is changed or reordered, only the front is cut. *)
Theorem tail_returns_suffix (fs : filesystem) (p content : str) (n : Z) :
  read_text fs p = Ok content -> (1 <= n)%Z ->
  exists front result,
    read_transcript fs p (Some n) = Ok result
    /\ decode_unicode_escapes content = front ++ result.
Proof.
  intros Hread Hn.
  set (lines := Py.split NL (decode_unicode_escapes content)).
  destruct (PyFacts.last_n_suffix (Z.to_nat n) lines) as (pieces & Hl & _).
  destruct (PyFacts.join_app_suffix [NL] pieces (Py.last_n (Z.to_nat n) lines))
    as [front Hj].
  exists front, (Py.join [NL] (Py.last_n (Z.to_nat n) lines)); split.
  - unfold read_transcript; rewrite Hread.
    destruct (Z.eqb_spec n 0) as [->|_]; [lia|].
    unfold Py.slice_from_neg.
    destruct (Z.ltb_spec 0 n); [reflexivity | lia].
  - rewrite <- Hj, <- Hl; unfold lines.
    symmetry; apply PyFacts.join_split.
Qed.

Lemma tail_returns_suffix_witness :
  exists front result,
    read_transcript ten_lines (lit "/mnt/transcripts/t.txt") (Some 2%Z)
    = Ok result
    /\ decode_unicode_escapes (txt "l1|l2|l3|l4|l5|l6|l7|l8|l9|l10")
       = front ++ result.
Proof.
  apply (tail_returns_suffix ten_lines (lit "/mnt/transcripts/t.txt"));
    [reflexivity | lia].
Defined.

(** X6: a [tail] that is at least the number of lines returns the whole
    decoded content. *)
Theorem tail_beyond_length_returns_everything
  (fs : filesystem) (p content : str) (n : Z) :
  read_text fs p = Ok content ->
  (Z.of_nat (length (Py.split NL (decode_unicode_escapes content))) <= n)%Z ->
  read_transcript fs p (Some n) = Ok (decode_unicode_escapes content).
Proof.
  intros Hread Hn.
  pose proof (PyFacts.split_nonempty NL (decode_unicode_escapes content)) as Hne.
  assert (Hpos : (1 <= n)%Z).
  { destruct (Py.split NL (decode_unicode_escapes content));
      [congruence | simpl length in Hn; lia]. }
  unfold read_transcript; rewrite Hread.
  destruct (Z.eqb_spec n 0) as [->|_]; [lia|].
  unfold Py.slice_from_neg, Py.last_n.
  destruct (Z.ltb_spec 0 n); [|lia].
  replace (length (Py.split NL (decode_unicode_escapes content))
           - Z.to_nat n)%nat with 0%nat by lia.
  simpl skipn; rewrite PyFacts.join_split; reflexivity.
Qed.

Lemma tail_beyond_length_returns_everything_witness :
  read_transcript ten_lines (lit "/mnt/transcripts/t.txt") (Some 10%Z)
  = Ok (txt "l1|l2|l3|l4|l5|l6|l7|l8|l9|l10").
Proof.
  apply (tail_beyond_length_returns_everything ten_lines
           (lit "/mnt/transcripts/t.txt")
           (txt "l1|l2|l3|l4|l5|l6|l7|l8|l9|l10"));
    [reflexivity | vm_compute; discriminate].
Defined.

(** ** Search *)

Lemma strongly_sorted_prefix {A} (R : A -> A -> Prop) (a b : list A) :
  StronglySorted R (a ++ b) -> StronglySorted R a.
Proof.
  induction a as [|x a IH]; simpl; intros H; [constructor|].
  inversion H as [|? ? Hs Hx]; subst.
  constructor; [exact (IH Hs)|].
  apply Forall_app in Hx; tauto.
Qed.

Lemma forall_firstn {A} (P : A -> Prop) (k : nat) (l : list A) :
  Forall P l -> Forall P (firstn k l).
Proof.
  intros H; rewrite <- (firstn_skipn k l) in H.
  apply Forall_app in H; tauto.
Qed.

(** The matches of the lines from number [i + 1] on: their numbers grow,
    and each one names a line that holds the query, with the first 200
    characters of that line. *)
Lemma matching_lines_spec (lower : str -> str) (q : str)
  (lines : list str) (i : N) :
  StronglySorted N.lt (List.map line (matching_lines lower q i lines))
  /\ Forall (fun m =>
               i < line m
               /\ exists l,
                    nth_error lines (N.to_nat (line m - i) - 1) = Some l
                    /\ text m = Py.up_to 200 l
                    /\ Py.contains q (lower l) = true)
       (matching_lines lower q i lines).
Proof.
  revert i; induction lines as [|l lines IH]; intros i.
  - split; constructor.
  - destruct (IH (i + 1)) as [Hs Hf].
    assert (Hf' : Forall (fun m =>
               i + 1 < line m
               /\ i < line m
               /\ exists l0,
                    nth_error (l :: lines) (N.to_nat (line m - i) - 1) = Some l0
                    /\ text m = Py.up_to 200 l0
                    /\ Py.contains q (lower l0) = true)
             (matching_lines lower q (i + 1) lines)).
    { eapply Forall_impl; [|exact Hf].
      intros m (Hlt & l0 & Hn & Ht & Hc).
      split; [exact Hlt|]; split; [lia|].
      exists l0; repeat split; auto.
      replace (N.to_nat (line m - i) - 1)%nat
        with (S (N.to_nat (line m - (i + 1)) - 1)) by lia.
      exact Hn. }
    cbn [matching_lines].
    destruct (Py.contains q (lower l)) eqn:E.
    + split.
      * cbn [List.map line]; constructor; [exact Hs|].
        apply Forall_forall; intros x Hx.
        apply in_map_iff in Hx; destruct Hx as (m & <- & Hm).
        rewrite Forall_forall in Hf'; destruct (Hf' m Hm) as [H _]; exact H.
      * constructor.
        -- cbn [line text]; split; [lia|].
           exists l; repeat split; auto.
           replace (N.to_nat (i + 1 - i) - 1)%nat with 0%nat by lia.
           reflexivity.
        -- eapply Forall_impl; [|exact Hf']; intros m (_ & Hm); exact Hm.
    + split; [exact Hs|].
      eapply Forall_impl; [|exact Hf']; intros m (_ & Hm); exact Hm.
Qed.

(** Where each result of the search comes from. *)
Lemma search_in_results (lower : str -> str) (fs : filesystem) (q : str)
  (transcripts : list transcript) (results : list search_result) :
  search_in lower fs q transcripts = Ok results ->
  Forall (fun r =>
            exists t content,
              In t transcripts /\ file r = name t
              /\ read_transcript fs (path t) None = Ok content
              /\ Py.contains q (lower content) = true
              /\ matches r
                 = Py.up_to 10
                     (matching_lines lower q 0 (Py.split NL content)))
    results.
Proof.
  revert results; induction transcripts as [|t ts IH]; intros results H.
  - inversion H; constructor.
  - cbn [search_in] in H.
    destruct (read_transcript fs (path t) None) as [content|] eqn:Er;
      [|discriminate].
    destruct (search_in lower fs q ts) as [rs|]; [|discriminate].
    inversion H; subst; clear H.
    apply Forall_app; split.
    + destruct (Py.contains q (lower content)) eqn:Ec; constructor;
        [|constructor].
      exists t, content; repeat split; auto; left; reflexivity.
    + eapply Forall_impl; [|exact (IH _ eq_refl)].
      intros r (t' & c' & Hin & Hrest).
      exists t', c'; split; [right; exact Hin | exact Hrest].
Qed.

(** The bounds on the matches hold for every lowering. *)
Lemma search_in_bounds (lower : str -> str) (fs : filesystem) (q : str)
  (transcripts : list transcript) (results : list search_result) :
  search_in lower fs q transcripts = Ok results ->
  Forall (fun r =>
            (length (matches r) <= 10)%nat
            /\ StronglySorted N.lt (List.map line (matches r))
            /\ Forall (fun m => 1 <= line m /\ (length (text m) <= 200)%nat)
                 (matches r)) results.
Proof.
  intros H; apply search_in_results in H.
  eapply Forall_impl; [|exact H].
  intros r (t & content & _ & _ & _ & _ & ->).
  destruct (matching_lines_spec lower q (Py.split NL content) 0)
    as [Hs Hf].
  unfold Py.up_to; repeat split.
  - apply firstn_le_length.
  - rewrite <- firstn_map.
    apply (strongly_sorted_prefix _ _ (skipn 10 (List.map line
             (matching_lines lower q 0 (Py.split NL content))))).
    rewrite firstn_skipn; exact Hs.
  - apply forall_firstn.
    eapply Forall_impl; [|exact Hf].
    intros m (Hlt & l & _ & -> & _); split; [lia|].
    apply firstn_le_length.
Qed.

(** X7: every result of a search holds at most ten matches; their line
    numbers start at 1 and grow strictly; no match text is longer than
    200 characters. *)
Theorem search_matches_bounded_and_ordered
  (fs : filesystem) (query : str) (results : list search_result) :
  search_transcripts fs query = Ok results ->
  Forall (fun r =>
            (length (matches r) <= 10)%nat
            /\ StronglySorted N.lt (List.map line (matches r))
            /\ Forall (fun m => 1 <= line m /\ (length (text m) <= 200)%nat)
                 (matches r)) results.
Proof. apply (search_in_bounds Py.lower). Qed.

Lemma search_matches_bounded_and_ordered_witness :
  search_transcripts mixed_directory (lit "A")
  = Ok [{| file := lit "a.txt";
           matches := [{| line := 2; text := lit "A" |}] |}]
  /\ Forall (fun r =>
               (length (matches r) <= 10)%nat
               /\ StronglySorted N.lt (List.map line (matches r))
               /\ Forall (fun m => 1 <= line m
                                   /\ (length (text m) <= 200)%nat)
                    (matches r))
       [{| file := lit "a.txt";
           matches := [{| line := 2; text := lit "A" |}] |}].
Proof.
  assert (H : search_transcripts mixed_directory (lit "A")
              = Ok [{| file := lit "a.txt";
                       matches := [{| line := 2; text := lit "A" |}] |}])
    by reflexivity.
  split; [exact H|].
  exact (search_matches_bounded_and_ordered mixed_directory (lit "A") _ H).
Defined.

(** X8: whatever the lowering function is, every result names a listed
    transcript whose decoded content, lowered, holds the lowered query;
    and every match of the result gives the number of a line of that
    content that holds the lowered query once lowered itself, with the
    first 200 characters of the line as it is in the content. *)
Theorem search_matches_are_lines (lower : str -> str)
  (fs : filesystem) (query : str) (results : list search_result) :
  search_transcripts_with lower fs query = Ok results ->
  Forall (fun r =>
            exists t content,
              In t (get_transcript_list fs) /\ file r = name t
              /\ read_transcript fs (path t) None = Ok content
              /\ Py.contains (lower query) (lower content) = true
              /\ Forall (fun m =>
                           exists l,
                             nth_error (Py.split NL content)
                               (N.to_nat (line m) - 1) = Some l
                             /\ text m = Py.up_to 200 l
                             /\ Py.contains (lower query) (lower l) = true)
                   (matches r)) results.
Proof.
  intros H; apply search_in_results in H.
  eapply Forall_impl; [|exact H].
  intros r (t & content & Hin & Hf & Hr & Hc & ->).
  exists t, content; repeat split; auto.
  apply forall_firstn.
  destruct (matching_lines_spec lower (lower query) (Py.split NL content) 0)
    as [_ Hm].
  eapply Forall_impl; [|exact Hm].
  intros m (_ & l & Hn & Ht & Hl); exists l; repeat split; auto.
  rewrite N.sub_0_r in Hn; exact Hn.
Qed.

Lemma search_matches_are_lines_witness :
  search_transcripts_with Py.lower mixed_directory (lit "A")
  = Ok [{| file := lit "a.txt";
           matches := [{| line := 2; text := lit "A" |}] |}]
  /\ Forall (fun r =>
       exists t content,
         In t (get_transcript_list mixed_directory) /\ file r = name t
         /\ read_transcript mixed_directory (path t) None = Ok content
         /\ Py.contains (Py.lower (lit "A")) (Py.lower content) = true
         /\ Forall (fun m =>
                      exists l,
                        nth_error (Py.split NL content)
                          (N.to_nat (line m) - 1) = Some l
                        /\ text m = Py.up_to 200 l
                        /\ Py.contains (Py.lower (lit "A")) (Py.lower l)
                           = true) (matches r))
       [{| file := lit "a.txt";
           matches := [{| line := 2; text := lit "A" |}] |}].
Proof.
  assert (H : search_transcripts_with Py.lower mixed_directory (lit "A")
              = Ok [{| file := lit "a.txt";
                       matches := [{| line := 2; text := lit "A" |}] |}])
    by reflexivity.
  split; [exact H|].
  exact (search_matches_are_lines Py.lower mixed_directory (lit "A") _ H).
Defined.

Lemma search_in_files (lower : str -> str) (fs : filesystem) (query : str)
  (transcripts : list transcript) (results : list search_result) :
  search_in lower fs (lower query) transcripts = Ok results ->
  List.map file results
  = List.map name (filter (search_hit lower fs query) transcripts).
Proof.
  revert results; induction transcripts as [|t ts IH]; intros results H.
  - inversion H; reflexivity.
  - cbn [search_in] in H; cbn [filter]; unfold search_hit at 1.
    destruct (read_transcript fs (path t) None) as [content|];
      [|discriminate].
    destruct (search_in lower fs (lower query) ts) as [rs|]; [|discriminate].
    inversion H; subst; clear H.
    rewrite map_app, (IH _ eq_refl).
    destruct (Py.contains (lower query) (lower content)); reflexivity.
Qed.

(** X9: whatever the lowering function is, the search reports exactly
    the listed transcripts whose decoded content, lowered, holds the
    lowered query, once each and in the order of the listing. *)
Theorem search_reports_hits_in_listing_order (lower : str -> str)
  (fs : filesystem) (query : str) (results : list search_result) :
  search_transcripts_with lower fs query = Ok results ->
  List.map file results
  = List.map name
      (filter (search_hit lower fs query) (get_transcript_list fs)).
Proof. apply search_in_files. Qed.

Lemma search_reports_hits_in_listing_order_witness :
  search_transcripts_with Py.lower mixed_directory (lit "R")
  = Ok [{| file := lit "a.txt";
           matches := [{| line := 1; text := lit "first" |}] |};
        {| file := lit "c.txt";
           matches := [{| line := 1; text := lit "third" |}] |}]
  /\ [lit "a.txt"; lit "c.txt"]
     = List.map name (filter (search_hit Py.lower mixed_directory (lit "R"))
                        (get_transcript_list mixed_directory)).
Proof.
  assert (H : search_transcripts_with Py.lower mixed_directory (lit "R")
              = Ok [{| file := lit "a.txt";
                       matches := [{| line := 1; text := lit "first" |}] |};
                    {| file := lit "c.txt";
                       matches := [{| line := 1; text := lit "third" |}] |}])
    by reflexivity.
  split; [exact H|].
  exact (search_reports_hits_in_listing_order Py.lower mixed_directory
           (lit "R") _ H).
Defined.

(** The lowering of the witness is the one of ASCII texts, which works
    line by line; its directory holds [x y] on one line of [a.txt]. *)
Lemma search_without_line_break_witness :
  line_wise Py.lower
  /\ ~ In NL (lit "X Y")
  /\ search_transcripts_with Py.lower
       (directory [(lit "a.txt", txt "one|x y|two")]) (lit "X Y")
     = Ok [{| file := lit "a.txt";
              matches := [{| line := 2; text := lit "x y" |}] |}]
  /\ Forall (fun r =>
       matches r <> []
       /\ exists t content l,
            In t (get_transcript_list
                    (directory [(lit "a.txt", txt "one|x y|two")]))
            /\ file r = name t
            /\ read_transcript (directory [(lit "a.txt", txt "one|x y|two")])
                 (path t) None = Ok content
            /\ In l (Py.split NL content)
            /\ Py.contains (Py.lower (lit "X Y")) (Py.lower l) = true)
       [{| file := lit "a.txt";
           matches := [{| line := 2; text := lit "x y" |}] |}].
Proof.
  assert (Hq : ~ In NL (lit "X Y")) by (vm_compute; intuition discriminate).
  assert (H : search_transcripts_with Py.lower
                (directory [(lit "a.txt", txt "one|x y|two")]) (lit "X Y")
              = Ok [{| file := lit "a.txt";
                       matches := [{| line := 2; text := lit "x y" |}] |}])
    by reflexivity.
  split; [exact PyFacts.split_lower|].
  split; [exact Hq|]; split; [exact H|].
  exact (search_without_line_break Py.lower _ _ _ PyFacts.split_lower Hq H).
Defined.

Lemma read_transcript_raises (fs : filesystem) (p : str) (e : exn)
  (tail : option Z) :
  read_text fs p = Raise e -> read_transcript fs p tail = Raise e.
Proof. intros H; unfold read_transcript; rewrite H; reflexivity. Qed.

Lemma search_in_raises (lower : str -> str) (fs : filesystem) (q : str)
  (transcripts : list transcript) (t : transcript) (e : exn) :
  In t transcripts -> read_text fs (path t) = Raise e ->
  exists e', search_in lower fs q transcripts = Raise e'.
Proof.
  intros Hin Hr; induction transcripts as [|t' ts IH]; [destruct Hin|].
  cbn [search_in].
  destruct (read_transcript fs (path t') None) as [content|e'] eqn:E;
    [|exists e'; reflexivity].
  destruct Hin as [->|Hin].
  - rewrite (read_transcript_raises _ _ _ _ Hr) in E; discriminate.
  - destruct (IH Hin) as [e' ->]; exists e'; reflexivity.
Qed.

Lemma combine_from_raises (fs : filesystem)
  (transcripts : list transcript) (t : transcript) (e : exn) :
  In t transcripts -> read_text fs (path t) = Raise e ->
  exists e', combine_from fs transcripts = Raise e'.
Proof.
  intros Hin Hr; induction transcripts as [|t' ts IH]; [destruct Hin|].
  cbn [combine_from].
  destruct (read_transcript fs (path t') None) as [content|e'] eqn:E;
    [|exists e'; reflexivity].
  destruct Hin as [->|Hin].
  - rewrite (read_transcript_raises _ _ _ _ Hr) in E; discriminate.
  - destruct (IH Hin) as [e' ->]; exists e'; reflexivity.
Qed.

(** X10: when a listed transcript cannot be read, the search and the
    combination both end with an exception, whatever the other
    transcripts hold: neither skips the file. *)
Theorem unreadable_transcript_raises
  (fs : filesystem) (query : str) (t : transcript) (e : exn) :
  In t (get_transcript_list fs) ->
  read_text fs (path t) = Raise e ->
  (exists e', search_transcripts fs query = Raise e')
  /\ (exists e', combine_all_transcripts fs = Raise e').
Proof.
  intros Hin Hr; split.
  - exact (search_in_raises Py.lower fs _ _ t e Hin Hr).
  - unfold combine_all_transcripts.
    destruct (combine_from_raises fs
                (Py.sorted name (get_transcript_list fs)) t e) as [e' ->].
    + apply (Permutation_in _ (Permutation_sym (PyFacts.sorted_perm name _)));
        exact Hin.
    + exact Hr.
    + exists e'; reflexivity.
Qed.

Lemma unreadable_transcript_raises_witness :
  (exists e', search_transcripts unreadable_directory (lit "q") = Raise e')
  /\ (exists e', combine_all_transcripts unreadable_directory = Raise e').
Proof.
  apply (unreadable_transcript_raises unreadable_directory (lit "q")
           {| name := lit "a.txt"; size := 1; modified := 0;
              path := lit "/mnt/transcripts/a.txt" |} OSError).
  - left; reflexivity.
  - reflexivity.
Defined.

(** ** The combination *)

Lemma combine_from_blocks (fs : filesystem) (transcripts : list transcript)
  (combined : list str) :
  combine_from fs transcripts = Ok combined ->
  Py.join [NL] combined
  = Py.join [NL]
      (List.map (fun t => transcript_block (name t) (content_of fs t))
         transcripts)
  /\ (transcripts <> [] -> combined <> []).
Proof.
  revert combined; induction transcripts as [|t ts IH]; intros combined H.
  - inversion H; split; [reflexivity | congruence].
  - cbn [combine_from] in H.
    destruct (read_transcript fs (path t) None) as [content|] eqn:Er;
      [|discriminate].
    destruct (combine_from fs ts) as [rest|] eqn:Ec; [|discriminate].
    inversion H; subst; clear H.
    split; [|discriminate].
    destruct (IH _ eq_refl) as [IHj IHne].
    rewrite PyFacts.join_four.
    cbn [List.map]; unfold content_of at 1; rewrite Er.
    fold (transcript_block (name t) content).
    destruct ts as [|t' ts'].
    + cbn [combine_from] in Ec; inversion Ec; subst.
      rewrite app_nil_r; reflexivity.
    + destruct rest as [|r rest']; [exfalso; apply IHne; [discriminate | reflexivity]|].
      rewrite IHj.
      cbn [List.map].
      change (Py.join [NL]
                (transcript_block (name t) content
                 :: transcript_block (name t') (content_of fs t')
                 :: List.map (fun t0 => transcript_block (name t0)
                                          (content_of fs t0)) ts'))
        with (transcript_block (name t) content ++ [NL]
              ++ Py.join [NL]
                   (transcript_block (name t') (content_of fs t')
                    :: List.map (fun t0 => transcript_block (name t0)
                                             (content_of fs t0)) ts')).
      reflexivity.
Qed.

(** X12: what the combination returns is one block per listed
    transcript, in the order of the listing, the blocks separated by
    line breaks; a block is the rule, the banner with the file name, the
    rule, an empty line and the decoded content.  With no transcript
    the result is the empty text. *)
Theorem combine_is_blocks_in_listing_order (fs : filesystem) (out : str) :
  combine_all_transcripts fs = Ok out ->
  out = Py.join [NL]
          (List.map (fun t => transcript_block (name t) (content_of fs t))
             (get_transcript_list fs)).
Proof.
  unfold combine_all_transcripts.
  rewrite (PyFacts.sorted_of_sorted name _ (listing_sorted fs)).
  destruct (combine_from fs (get_transcript_list fs)) as [combined|] eqn:E;
    [|discriminate].
  intros H; inversion H; subst.
  exact (proj1 (combine_from_blocks fs _ _ E)).
Qed.

Lemma combine_is_blocks_in_listing_order_witness :
  combine_all_transcripts two_files
  = Ok (transcript_block (lit "a.txt") (lit "first") ++ [NL]
        ++ transcript_block (lit "b.txt") (lit "second"))
  /\ transcript_block (lit "a.txt") (lit "first") ++ [NL]
     ++ transcript_block (lit "b.txt") (lit "second")
     = Py.join [NL]
         (List.map (fun t => transcript_block (name t)
                               (content_of two_files t))
            (get_transcript_list two_files)).
Proof.
  assert (H : combine_all_transcripts two_files
              = Ok (transcript_block (lit "a.txt") (lit "first") ++ [NL]
                    ++ transcript_block (lit "b.txt") (lit "second")))
    by reflexivity.
  split; [exact H|].
  exact (combine_is_blocks_in_listing_order two_files _ H).
Defined.

(** ** Message extraction *)

Lemma roles_alternate_split (content : str) (skip : nat) :
  exists first parts,
    Re.split_roles_from skip content = first :: parts
    /\ roles_alternate parts.
Proof.
  revert skip; induction content as [|c rest IH]; intros skip.
  - exists [], []; split; [reflexivity | exact I].
  - cbn [Re.split_roles_from].
    destruct skip as [|skip']; [|apply IH].
    destruct (Py.startswith Re.HUMAN_MARK (c :: rest)).
    { destruct (IH (length Re.HUMAN_MARK - 1)%nat) as (f & p & -> & Hp).
      exists [], (lit "Human" :: f :: p); split; [reflexivity|].
      split; [left; reflexivity | exact Hp]. }
    destruct (Py.startswith Re.ASSISTANT_MARK (c :: rest)).
    { destruct (IH (length Re.ASSISTANT_MARK - 1)%nat) as (f & p & -> & Hp).
      exists [], (lit "Assistant" :: f :: p); split; [reflexivity|].
      split; [right; reflexivity | exact Hp]. }
    destruct (IH 0%nat) as (f & p & -> & Hp).
    exists (c :: f), p; split; [reflexivity | exact Hp].
Qed.

Lemma extract_items_well_formed (r : str) (data : list Json.value) :
  r = lit "Human" \/ r = lit "Assistant" ->
  forall messages result,
    Forall well_formed messages ->
    extract_items r data messages = Ok result ->
    Forall well_formed result.
Proof.
  intros Hr; induction data as [|item data IH]; intros messages result Hm H.
  - inversion H; subst; exact Hm.
  - cbn [extract_items] in H.
    destruct (item_get (lit "type") item) as [type|]; [|discriminate].
    destruct (is_text type); [|exact (IH _ _ Hm H)].
    destruct (item_get (lit "text") item) as [field|]; [|discriminate].
    destruct (truthy field); [|exact (IH _ _ Hm H)].
    destruct (value_strip field) as [text|] eqn:Es; [|discriminate].
    destruct (nonempty text && negb (Py.str_eqb text (lit " "))) eqn:Et;
      [|exact (IH _ _ Hm H)].
    refine (IH _ _ _ H).
    apply Forall_app; split; [exact Hm|].
    constructor; [|constructor].
    unfold well_formed; cbn [role msg_text]; repeat split.
    + destruct Hr as [-> | ->]; [left | right]; reflexivity.
    + apply andb_true_iff in Et; destruct Et as [Et _].
      destruct text; [discriminate | discriminate].
    + destruct field as [[]|]; try discriminate.
      inversion Es; subst; apply PyFacts.strip_idem.
Qed.

Lemma extract_from_well_formed (depth : nat) (parts : list str) :
  roles_alternate parts ->
  forall messages result,
    Forall well_formed messages ->
    extract_from_within depth parts messages = Ok result ->
    Forall well_formed result.
Proof.
  induction parts as [|x|r j parts IH] using list_pair_ind;
    intros Hp messages result Hm H.
  - inversion H; subst; exact Hm.
  - inversion H; subst; exact Hm.
  - destruct Hp as [Hr Hp].
    cbn [extract_from_within] in H.
    destruct (nonempty r && nonempty j); [|exact (IH Hp _ _ Hm H)].
    destruct (extract_segment_within depth r j messages) as [ms|e] eqn:Es.
    + refine (IH Hp _ _ _ H).
      unfold extract_segment_within in Es.
      destruct (Re.search_array j) as [fragment|];
        [|inversion Es; subst; exact Hm].
      destruct (json_loads_within depth fragment) as [data|];
        [|discriminate].
      destruct (iterate data) as [items|]; [|discriminate].
      exact (extract_items_well_formed r items Hr _ _ Hm Es).
    + destruct e; try discriminate; exact (IH Hp _ _ Hm H).
Qed.

(** X13: every message the extraction returns has the role [human] or
    [assistant], and a text that is not empty and carries no white
    space at its ends. *)
Theorem extracted_messages_well_formed
  (content : str) (messages : list message) :
  extract_messages content = Ok messages ->
  Forall well_formed messages.
Proof.
  unfold extract_messages, extract_messages_within, Re.split_roles.
  destruct (roles_alternate_split content 0) as (first & parts & -> & Hp).
  exact (extract_from_well_formed _ parts Hp [] messages (Forall_nil _)).
Qed.

Lemma extracted_messages_well_formed_witness :
  extract_messages hi_text
  = Ok [{| role := lit "human"; msg_text := lit "hi" |}]
  /\ Forall well_formed [{| role := lit "human"; msg_text := lit "hi" |}].
Proof.
  assert (H : extract_messages hi_text
              = Ok [{| role := lit "human"; msg_text := lit "hi" |}])
    by (vm_compute; reflexivity).
  split; [exact H|].
  exact (extracted_messages_well_formed hi_text _ H).
Defined.

Lemma split_roles_without_marks (content : str) :
  Py.contains Re.HUMAN_MARK content = false ->
  Py.contains Re.ASSISTANT_MARK content = false ->
  Re.split_roles_from 0 content = [content].
Proof.
  induction content as [|c rest IH]; intros Hh Ha; [reflexivity|].
  cbn [Py.contains] in Hh, Ha.
  apply orb_false_iff in Hh; destruct Hh as [Hh Hh'].
  apply orb_false_iff in Ha; destruct Ha as [Ha Ha'].
  cbn [Re.split_roles_from]; rewrite Hh, Ha, (IH Hh' Ha'); reflexivity.
Qed.

(** X14: a text in which neither role marker occurs, the empty text
    among them, gives no message and no error. *)
Theorem extract_without_markers (content : str) :
  Py.contains Re.HUMAN_MARK content = false ->
  Py.contains Re.ASSISTANT_MARK content = false ->
  extract_messages content = Ok [].
Proof.
  intros Hh Ha.
  unfold extract_messages, extract_messages_within, Re.split_roles.
  rewrite (split_roles_without_marks content Hh Ha); reflexivity.
Qed.

Lemma extract_without_markers_witness :
  extract_messages (txt "Human: hello|[|{'type':'text','text':'hi'}|]|")
  = Ok [].
Proof.
  apply extract_without_markers; reflexivity.
Defined.

(** ** The modes of [main] *)

Lemma get_current_none (fs : filesystem) :
  get_transcript_list fs = [] -> get_current_transcript fs = None.
Proof. intros H; unfold get_current_transcript; rewrite H; reflexivity. Qed.

(** X15: in default mode, when the listing is empty, the script prints
    [No transcripts found] on standard output, prints nothing on the
    error stream, writes no file and exits with status 1. *)
Theorem no_transcripts_exits_1 (fs : filesystem) (a : args) :
  default_mode a ->
  get_transcript_list fs = [] ->
  run fs a
  = (Raise (SystemExit 1),
     {| stdout := lit "No transcripts found" ++ [NL];
        stderr := [];
        written := [] |}).
Proof.
  intros (Hl & Hs & Ha & Hf) He.
  unfold run, main, main_with.
  rewrite Hl, Hs, Ha, Hf, (get_current_none fs He); reflexivity.
Qed.

(** The journal alone does not count as a transcript. *)
Lemma no_transcripts_exits_1_witness :
  default_mode no_args
  /\ get_transcript_list journal_only = []
  /\ run journal_only no_args
     = (Raise (SystemExit 1),
        {| stdout := lit "No transcripts found" ++ [NL];
           stderr := [];
           written := [] |}).
Proof.
  assert (Hd : default_mode no_args) by (repeat split).
  assert (He : get_transcript_list journal_only = []) by reflexivity.
  split; [exact Hd|]; split; [exact He|].
  exact (no_transcripts_exits_1 journal_only no_args Hd He).
Defined.




(** X17: with [--all] the value of [--tail] changes nothing: the
    combined content is never tailed. *)
Theorem all_mode_ignores_tail (fs : filesystem) (a : args) (tail : option Z) :
  arg_list a = false ->
  given_str (arg_search a) = None ->
  arg_all a = true ->
  run fs (with_tail a tail) = run fs a.
Proof.
  intros Hl Hs Ha; unfold run, main, main_with, with_tail; cbn [arg_list arg_search arg_all].
  rewrite Hl, Hs, Ha; reflexivity.
Qed.

Lemma all_mode_ignores_tail_witness :
  run two_files (with_tail all_args (Some 1%Z)) = run two_files all_args.
Proof.
  exact (all_mode_ignores_tail two_files all_args (Some 1%Z)
           eq_refl eq_refl eq_refl).
Defined.

(** X18: without [--list], without a non-empty [--search] and without
    [--all], with a non-empty [--file] naming an existing file that can
    be read, no [--messages], and a non-empty [--output] naming a path,
    the content (tailed as asked) goes to that path and not to standard
    output, which gets the line [Saved: <path>] only; when the path
    cannot be opened for writing the script ends with the exception and
    prints nothing. *)
Theorem output_mode_writes_result
  (fs : filesystem) (a : args) (file out result : str) :
  arg_list a = false ->
  given_str (arg_search a) = None ->
  arg_all a = false ->
  given_str (arg_file a) = Some file ->
  path_exists fs (in_transcripts_dir file) = true ->
  read_transcript fs (in_transcripts_dir file) (arg_tail a) = Ok result ->
  arg_messages a = false ->
  given_str (arg_output a) = Some out ->
  run fs a
  = if writable fs out
    then (Ok tt,
          {| stdout := lit "Saved: " ++ out ++ [NL];
             stderr := [];
             written := [(out, result)] |})
    else (Raise OSError, io_empty).
Proof.
  intros Hl Hs Ha Hf He Hr Hm Ho.
  unfold run, main, main_with; rewrite Hl, Hs, Ha, Hf, He, Hr.
  unfold finish_within; rewrite Hm, Ho.
  unfold bind, lift, ret, write_file, print; cbn.
  destruct (writable fs out); [|reflexivity].
  rewrite <- ?app_assoc; reflexivity.
Qed.

Lemma output_mode_writes_result_witness :
  run two_files file_to_output_args
  = (Ok tt,
     {| stdout := lit "Saved: out.txt" ++ [NL];
        stderr := [];
        written := [(lit "out.txt", lit "first")] |}).
Proof.
  exact (output_mode_writes_result two_files file_to_output_args
           (lit "a.txt") (lit "out.txt") (lit "first")
           eq_refl eq_refl eq_refl eq_refl eq_refl eq_refl eq_refl eq_refl).
Defined.

(** X19: without [--list], without a non-empty [--search] and without
    [--all], with a non-empty [--file] naming an existing file that can
    be read, with [--messages] and without a non-empty [--output]: when
    the extraction returns no message for the content (tailed as asked),
    the script prints nothing at all, writes nothing and ends normally.
    This holds whatever the lowering function and the recursion depth
    left are, the extraction being run at that depth. *)
Theorem messages_mode_without_messages_prints_nothing
  (lower : str -> str) (depth : nat)
  (fs : filesystem) (a : args) (file result : str) :
  arg_list a = false ->
  given_str (arg_search a) = None ->
  arg_all a = false ->
  given_str (arg_file a) = Some file ->
  path_exists fs (in_transcripts_dir file) = true ->
  read_transcript fs (in_transcripts_dir file) (arg_tail a) = Ok result ->
  arg_messages a = true ->
  extract_messages_within depth result = Ok [] ->
  given_str (arg_output a) = None ->
  run_with lower depth fs a = (Ok tt, io_empty).
Proof.
  intros Hl Hs Ha Hf He Hr Hm Hx Ho.
  unfold run_with, main_with; rewrite Hl, Hs, Ha, Hf, He, Hr.
  unfold finish_within; rewrite Hm, Ho.
  unfold bind, lift, ret.
  destruct result as [|c result]; [reflexivity|].
  cbn [nonempty andb]; rewrite Hx; reflexivity.
Qed.

Lemma messages_mode_without_messages_prints_nothing_witness :
  extract_messages_within Json.RECURSION_LIMIT (lit "first") = Ok []
  /\ run_with Py.lower Json.RECURSION_LIMIT two_files file_messages_args
     = (Ok tt, io_empty).
Proof.
  assert (Hx : extract_messages_within Json.RECURSION_LIMIT (lit "first")
               = Ok []) by reflexivity.
  split; [exact Hx|].
  exact (messages_mode_without_messages_prints_nothing
           Py.lower Json.RECURSION_LIMIT two_files
           file_messages_args (lit "a.txt") (lit "first")
           eq_refl eq_refl eq_refl eq_refl eq_refl eq_refl eq_refl Hx
           eq_refl).
Defined.

Lemma path_name_in_directory (n : str) :
  ~ In 47 n -> path_name (TRANSCRIPTS_DIR ++ 47 :: n) = n.
Proof.
  intros Hn; unfold path_name.
  rewrite PyFacts.split_last by exact Hn.
  rewrite rev_app_distr; reflexivity.
Qed.

(** X20: in default mode, with the last listed transcript readable and
    neither [--messages] nor [--output] given, the script prints
    [Current: <name>] and an empty line on the error stream and the
    content of that transcript (tailed as asked) on standard output;
    an empty content prints nothing there. *)
Theorem default_mode_prints_current
  (fs : filesystem) (a : args) (t : transcript) (before : list transcript)
  (result : str) :
  default_mode a ->
  get_transcript_list fs = before ++ [t] ->
  ~ In 47 (name t) ->
  read_transcript fs (path t) (arg_tail a) = Ok result ->
  arg_messages a = false ->
  given_str (arg_output a) = None ->
  run fs a
  = (Ok tt,
     {| stdout := match result with [] => [] | _ :: _ => result ++ [NL] end;
        stderr := lit "Current: " ++ name t ++ [NL; NL];
        written := [] |}).
Proof.
  intros (Hl & Hs & Ha & Hf) Hlist Hn Hr Hm Ho.
  assert (Hin : In t (get_transcript_list fs)).
  { rewrite Hlist; apply in_or_app; right; left; reflexivity. }
  assert (Hc : get_current_transcript fs = Some (path t)).
  { rewrite current_is_last, Hlist, rev_app_distr; reflexivity. }
  unfold run, main, main_with; rewrite Hl, Hs, Ha, Hf, Hc.
  unfold bind at 1, print_err at 1; cbn [stdout stderr written io_empty].
  unfold bind at 1, lift at 1; rewrite Hr.
  unfold finish_within; rewrite Hm, Ho.
  rewrite (listing_paths fs t Hin), (path_name_in_directory _ Hn).
  unfold bind, ret, print; cbn.
  destruct result; rewrite <- ?app_assoc; reflexivity.
Qed.

Lemma default_mode_prints_current_witness :
  run two_files no_args
  = (Ok tt,
     {| stdout := txt "second|";
        stderr := txt "Current: b.txt||";
        written := [] |}).
Proof.
  assert (Hd : default_mode no_args) by (repeat split).
  refine (default_mode_prints_current two_files no_args
            {| name := lit "b.txt"; size := 6; modified := 0;
               path := lit "/mnt/transcripts/b.txt" |}
            [{| name := lit "a.txt"; size := 5; modified := 0;
                path := lit "/mnt/transcripts/a.txt" |}]
            (lit "second") Hd eq_refl _ eq_refl eq_refl eq_refl).
  vm_compute; intuition discriminate.
Defined.

Lemma search_in_no_hit (lower : str -> str) (fs : filesystem) (query : str)
  (transcripts : list transcript) :
  (forall t, In t transcripts ->
     exists content,
       read_text fs (path t) = Ok content
       /\ Py.contains (lower query)
            (lower (decode_unicode_escapes content)) = false) ->
  search_in lower fs (lower query) transcripts = Ok [].
Proof.
  induction transcripts as [|t ts IH]; intros H; [reflexivity|].
  cbn [search_in].
  destruct (H t (or_introl eq_refl)) as (content & Hr & Hc).
  unfold read_transcript at 1; rewrite Hr, Hc.
  rewrite IH; [reflexivity | intros t' Ht'; apply H; right; exact Ht'].
Qed.

(** X21: without [--list] and with a non-empty [--search] query, when
    every listed transcript can be read and none holds the query (the
    lowered decoded content does not contain the lowered query), the
    script prints [No matches for: <query>] on standard output and
    nothing else, and ends normally; this holds whatever the lowering
    function and the recursion depth left are. *)
Theorem search_mode_without_match (lower : str -> str) (depth : nat)
  (fs : filesystem) (a : args) (query : str) :
  arg_list a = false ->
  given_str (arg_search a) = Some query ->
  (forall t, In t (get_transcript_list fs) ->
     exists content,
       read_text fs (path t) = Ok content
       /\ Py.contains (lower query)
            (lower (decode_unicode_escapes content)) = false) ->
  run_with lower depth fs a
  = (Ok tt,
     {| stdout := lit "No matches for: " ++ query ++ [NL];
        stderr := [];
        written := [] |}).
Proof.
  intros Hl Hs Hno; unfold run_with, main_with; rewrite Hl, Hs.
  unfold search_transcripts_with, bind, lift.
  rewrite (search_in_no_hit lower fs query _ Hno).
  unfold print; cbn; rewrite <- ?app_assoc; reflexivity.
Qed.

Lemma search_mode_without_match_witness :
  run_with Py.lower Json.RECURSION_LIMIT two_files search_zebra_args
  = (Ok tt,
     {| stdout := lit "No matches for: zebra" ++ [NL];
        stderr := [];
        written := [] |}).
Proof.
  apply (search_mode_without_match Py.lower Json.RECURSION_LIMIT
           two_files search_zebra_args (lit "zebra"));
    [reflexivity | reflexivity|].
  intros t [<-|[<-|[]]].
  - exists (lit "first"); split; reflexivity.
  - exists (lit "second"); split; reflexivity.
Defined.

(** ** The formatter *)

(** X22: with a limit [n >= 1] the block of a message is its head, a
    body and a line break, where the body starts like the text, is the
    whole text when that has at most [n] characters, and is never
    longer than [n + 3] characters. *)
Theorem truncated_message_length (n : Z) (m : message) :
  (1 <= n)%Z ->
  exists body,
    format_message (Some n) m = block_head m ++ body ++ [NL]
    /\ (length body <= Z.to_nat n + 3)%nat
    /\ Py.up_to (Z.to_nat n) body = Py.up_to (Z.to_nat n) (msg_text m)
    /\ ((length (msg_text m) <= Z.to_nat n)%nat -> body = msg_text m).
Proof.
  intros Hn.
  assert (Hg : given (Some n) = Some n).
  { unfold given; destruct (Z.eqb_spec n 0); [lia | reflexivity]. }
  unfold format_message, block_head; rewrite Hg.
  destruct (Z.ltb_spec n (Z.of_nat (length (msg_text m)))) as [Hlt|Hge].
  - exists (up_to_Z n (msg_text m) ++ lit "...").
    unfold up_to_Z, Py.up_to.
    destruct (Z.leb_spec 0 n); [|lia].
    repeat split.
    + cbn; rewrite <- !app_assoc; reflexivity.
    + rewrite length_app, length_firstn; simpl; lia.
    + rewrite firstn_app, length_firstn.
      replace (Z.to_nat n - Nat.min (Z.to_nat n) (length (msg_text m)))%nat
        with 0%nat by lia.
      rewrite firstn_firstn, Nat.min_id, app_nil_r; reflexivity.
    + intros Hle; lia.
  - exists (msg_text m); repeat split.
    + cbn; rewrite <- !app_assoc; reflexivity.
    + lia.
Qed.

Lemma truncated_message_length_witness :
  format_message (Some 3%Z) {| role := lit "human"; msg_text := lit "hello" |}
  = txt "|[HUMAN]:|hel...|"
  /\ exists body,
       format_message (Some 3%Z)
         {| role := lit "human"; msg_text := lit "hello" |}
       = block_head {| role := lit "human"; msg_text := lit "hello" |}
         ++ body ++ [NL]
       /\ (length body <= Z.to_nat 3 + 3)%nat
       /\ Py.up_to (Z.to_nat 3) body = Py.up_to (Z.to_nat 3) (lit "hello")
       /\ ((length (lit "hello") <= Z.to_nat 3)%nat -> body = lit "hello").
Proof.
  split; [reflexivity|].
  apply (truncated_message_length 3
           {| role := lit "human"; msg_text := lit "hello" |}); lia.
Defined.
